(** * CodexGlyph engine v2.6: a shallow embedding of [codexglyph_v26_full.py]

    The development follows the source file top to bottom: the Python
    runtime operations the parser relies on (string methods, dictionaries,
    exceptions), the lexical tables of [CodexGlyphParser], the resonance
    calculator, the V+CC detector, the component extractor, the Greek
    compound matcher, [parse_word], and the document analyser and reporter.

    Conventions of the embedding.
    - A Python [str] is a Rocq [string]; the text is read as 8-bit
      characters and the [str] methods ([upper], [lower], [isalpha],
      [isalnum], [strip]) act as they do on the ASCII range.  Codes above
      127 carry no case and belong to no character class.  The literals of
      the source that are not ASCII (the arrow of the resonance string, the
      middle dot of the labels, the bullet of the report) appear as their
      UTF-8 bytes.
    - A Python [dict] is an association list in insertion order, since the
      source iterates over its dictionaries.
    - A Python call that may raise returns an [outcome]; the [while] loop of
      the resonance calculator runs on fuel and reports [OutOfFuel] when it
      is exhausted. *)

From Stdlib Require Import String Ascii List Bool Arith NArith ZArith Lia.
From Stdlib Require Import DecimalString DecimalN DecimalPos DecimalFacts.
From Stdlib Require Import Floats Uint63 Permutation Sorted.
Import ListNotations.

Local Open Scope list_scope.
Local Open Scope string_scope.

(** ** Outcomes of Python calls *)

Inductive exn : Type :=
| KeyError
| IndexError
| TypeError
| ValueError
| ZeroDivisionError.

Inductive outcome (A : Type) : Type :=
| Ok (a : A)
| Raise (e : exn)
| OutOfFuel.

Arguments Ok {A} a.
Arguments Raise {A} e.
Arguments OutOfFuel {A}.

Definition bind {A B : Type} (m : outcome A) (k : A -> outcome B) : outcome B :=
  match m with
  | Ok a => k a
  | Raise e => Raise e
  | OutOfFuel => OutOfFuel
  end.

Notation "x <- m ;; k" := (bind m (fun x => k))
  (at level 61, m at next level, right associativity).
Notation "' pat <- m ;; k" := (bind m (fun x => match x with pat => k end))
  (at level 61, pat pattern, m at next level, right associativity).

(** [returns m] holds when the call ends normally with a value. *)
Definition returns {A : Type} (m : outcome A) : Prop := exists a, m = Ok a.

(** ** Python strings *)

Module Py.

Definition code (c : ascii) : N := N_of_ascii c.

Definition between (lo hi : N) (c : ascii) : bool :=
  ((lo <=? code c) && (code c <=? hi))%N.

Definition is_upper_char (c : ascii) : bool := between 65 90 c.
Definition is_lower_char (c : ascii) : bool := between 97 122 c.
Definition isdigit_char (c : ascii) : bool := between 48 57 c.

(** [c.isalpha()] and [c.isalnum()] for a one-character string. *)
Definition isalpha_char (c : ascii) : bool := is_upper_char c || is_lower_char c.
Definition isalnum_char (c : ascii) : bool := isalpha_char c || isdigit_char c.

(** [c.isspace()]: tab to carriage return, the four separators and space. *)
Definition isspace_char (c : ascii) : bool :=
  between 9 13 c || between 28 32 c.

Definition upper_char (c : ascii) : ascii :=
  if is_lower_char c then ascii_of_N (code c - 32) else c.

Definition lower_char (c : ascii) : ascii :=
  if is_upper_char c then ascii_of_N (code c + 32) else c.

Fixpoint map (f : ascii -> ascii) (s : string) : string :=
  match s with
  | EmptyString => EmptyString
  | String c s' => String (f c) (map f s')
  end.

Fixpoint filter (f : ascii -> bool) (s : string) : string :=
  match s with
  | EmptyString => EmptyString
  | String c s' => if f c then String c (filter f s') else filter f s'
  end.

(** [s.upper()] and [s.lower()]. *)
Definition upper (s : string) : string := map upper_char s.
Definition lower (s : string) : string := map lower_char s.

(** [len(s)]. *)
Definition len (s : string) : nat := String.length s.

(** [s[n:]] and [s[:n]] for [0 <= n]. *)
Fixpoint drop (n : nat) (s : string) : string :=
  match n, s with
  | O, _ => s
  | S _, EmptyString => EmptyString
  | S k, String _ s' => drop k s'
  end.

Fixpoint take (n : nat) (s : string) : string :=
  match n, s with
  | O, _ => EmptyString
  | S _, EmptyString => EmptyString
  | S k, String c s' => String c (take k s')
  end.

(** [s[:-k]] for [0 < k]: all but the last [k] characters. *)
Definition drop_last (k : nat) (s : string) : string := take (len s - k) s.

(** [w.startswith(p)]. *)
Fixpoint startswith (w p : string) {struct p} : bool :=
  match p, w with
  | EmptyString, _ => true
  | String _ _, EmptyString => false
  | String a p', String b w' => Ascii.eqb a b && startswith w' p'
  end.

(** [w.endswith(s)]. *)
Definition endswith (w s : string) : bool :=
  (len s <=? len w)%nat && String.eqb (drop (len w - len s) w) s.

(** [s in w] for strings: [s] occurs in [w] as a substring. *)
Fixpoint contains (w s : string) : bool :=
  startswith w s ||
  match w with
  | EmptyString => false
  | String _ w' => contains w' s
  end.

(** [c in s] for a character [c]. *)
Fixpoint char_in (c : ascii) (s : string) : bool :=
  match s with
  | EmptyString => false
  | String a s' => Ascii.eqb c a || char_in c s'
  end.

(** Number of occurrences of a character. *)
Fixpoint count (c : ascii) (s : string) : nat :=
  match s with
  | EmptyString => O
  | String a s' => (if Ascii.eqb c a then 1 else 0) + count c s'
  end.

Fixpoint lstrip (s : string) : string :=
  match s with
  | EmptyString => EmptyString
  | String c s' => if isspace_char c then lstrip s' else s
  end.

Fixpoint rstrip (s : string) : string :=
  match s with
  | EmptyString => EmptyString
  | String c s' =>
      match rstrip s' with
      | EmptyString => if isspace_char c then EmptyString else String c EmptyString
      | r => String c r
      end
  end.

(** [s.strip()]. *)
Definition strip (s : string) : string := rstrip (lstrip s).

(** [sep.join(parts)]. *)
Fixpoint join (sep : string) (parts : list string) : string :=
  match parts with
  | [] => EmptyString
  | [p] => p
  | p :: rest => p ++ sep ++ join sep rest
  end.

(** Truth value of a string, and of a string that may be [None]. *)
Definition truthy (s : string) : bool := negb (String.eqb s EmptyString).

Definition truthy_opt (o : option string) : bool :=
  match o with
  | Some s => truthy s
  | None => false
  end.

(** What an f-string prints for a value that may be [None]. *)
Definition fmt_opt (o : option string) : string :=
  match o with
  | Some s => s
  | None => "None"
  end.

(** [str(n)] for a natural number. *)
Definition str_of_N (n : N) : string := NilZero.string_of_uint (N.to_uint n).

(** [int(d)] for a one-character string. *)
Definition int_of_char (c : ascii) : outcome N :=
  if isdigit_char c then Ok (code c - 48)%N else Raise ValueError.

(** [sum(int(d) for d in s)]. *)
Fixpoint sum_int_chars (s : string) : outcome N :=
  match s with
  | EmptyString => Ok 0%N
  | String c s' =>
      d <- int_of_char c ;;
      r <- sum_int_chars s' ;;
      Ok (d + r)%N
  end.

(** Dictionaries with string keys, in insertion order. *)
Definition dict (V : Type) : Type := list (string * V).

Fixpoint get {V : Type} (d : dict V) (k : string) : option V :=
  match d with
  | [] => None
  | (k', v) :: d' => if String.eqb k k' then Some v else get d' k
  end.

(** [k in d]. *)
Definition mem {V : Type} (d : dict V) (k : string) : bool :=
  match get d k with
  | Some _ => true
  | None => false
  end.

(** [d[k]], which raises [KeyError] on an absent key. *)
Definition item {V : Type} (d : dict V) (k : string) : outcome V :=
  match get d k with
  | Some v => Ok v
  | None => Raise KeyError
  end.

Definition keys {V : Type} (d : dict V) : list string := List.map fst d.

(** [sorted(l, key=len, reverse=True)]: longest first, and stable, so that
    strings of one length keep the order they had in [l]. *)
Fixpoint insert_by_len (x : string) (l : list string) : list string :=
  match l with
  | [] => [x]
  | y :: l' => if (len x <? len y)%nat then y :: insert_by_len x l' else x :: l
  end.

Definition sorted_by_len_desc (l : list string) : list string :=
  fold_right insert_by_len [] l.

(** [l.append(x)]. *)
Definition append {A : Type} (l : list A) (x : A) : list A := (l ++ [x])%list.

(** [l[0]], which raises [IndexError] on the empty list. *)
Definition first {A : Type} (l : list A) : outcome A :=
  match l with
  | [] => Raise IndexError
  | x :: _ => Ok x
  end.

End Py.

(** ** Enumerations and the analysis record *)

Module ParsingLevel.
Inductive t : Type := CASUAL | STRUCTURAL | CEREMONIAL | EDUCATIONAL.
End ParsingLevel.

Module StrictnessLevel.
Inductive t : Type := PERMISSIVE | STANDARD | RIGOROUS.
End StrictnessLevel.

Module ShadowType.
Inductive t : Type := STRUCTURAL | SEMANTIC | BOTH.

Definition eqb (a b : t) : bool :=
  match a, b with
  | STRUCTURAL, STRUCTURAL => true
  | SEMANTIC, SEMANTIC => true
  | BOTH, BOTH => true
  | _, _ => false
  end.
End ShadowType.

(** The inner dictionaries of the tables: field name to text. *)
Definition info : Type := Py.dict string.

(** An entry of [GlyphAnalysis.components]. *)
Record component : Type := mkComponent {
  c_type : string;
  c_text : string;
  c_info : info
}.

Record GlyphAnalysis : Type := mkGlyphAnalysis {
  original : string;
  parsed : string;
  polarity : string;
  resonance : string;
  is_shadow : bool;
  shadow_types : list ShadowType.t;
  components : list component;
  warnings : list string;
  alternatives : list string;
  tier : option Z;
  field_context : option string;
  educational_note : option string
}.

(** ** The lexical tables of [CodexGlyphParser] *)

Definition TAP_ROOT : Py.dict (N * string) :=
  [ ("A", (1%N, "Initiation·Spark"));
    ("B", (2%N, "Duality·Choice"));
    ("C", (3%N, "Creation·Flow"));
    ("D", (4%N, "Structure·Stability"));
    ("E", (5%N, "Freedom·Change"));
    ("F", (6%N, "Harmony·SacredGeometry"));
    ("G", (7%N, "Mystery·Introspection"));
    ("H", (8%N, "Power·Infinity"));
    ("I", (9%N, "Completion·Wisdom"));
    ("J", (10%N, "RenewedInitiation"));
    ("K", (11%N, "MasterDuality·Gateway"));
    ("L", (12%N, "IlluminatedCreation"));
    ("M", (13%N, "ManifestedStructure"));
    ("N", (14%N, "NetworkedFreedom"));
    ("O", (15%N, "WholeHarmony·Orb"));
    ("P", (16%N, "PulsedMystery"));
    ("Q", (17%N, "QuantumPower"));
    ("R", (18%N, "RitualCompletion"));
    ("S", (19%N, "SpiraledInitiation"));
    ("T", (20%N, "TrialOfDuality"));
    ("U", (21%N, "UnifiedCreation"));
    ("V", (22%N, "MasterStructure"));
    ("W", (23%N, "WovenFreedom"));
    ("X", (24%N, "CrossedHarmony"));
    ("Y", (25%N, "ForkedMystery"));
    ("Z", (26%N, "ZeroedPower·Zenith")) ].

(** Master numbers, preserved during reduction. *)
Definition MASTER_NUMBERS : list (N * string) :=
  [ (11%N, "Gateway·Luminator");
    (22%N, "MasterBuilder");
    (33%N, "MasterTeacher·Healer");
    (44%N, "MasterFoundation");
    (55%N, "MasterChange·Freedom");
    (66%N, "MasterNurturer·Harmonizer");
    (77%N, "MasterMystic·Seeker");
    (88%N, "MasterManifestor·Abundance");
    (99%N, "MasterHumanitarian·Completion") ].

Definition VCC_PREFIXES : Py.dict info :=
  [ ("IN", [("meaning", "into/within"); ("type", "positional"); ("etymology", "Latin in-")]);
    ("EX", [("meaning", "out/from"); ("type", "positional"); ("etymology", "Latin ex-")]);
    ("AT", [("meaning", "at/toward"); ("type", "positional"); ("etymology", "Latin ad-variant")]);
    ("OB", [("meaning", "against/opposite"); ("type", "positional"); ("etymology", "Latin ob-")]);
    ("OP", [("meaning", "against/toward"); ("type", "positional"); ("etymology", "Latin ob-variant")]);
    ("AD", [("meaning", "toward/to"); ("type", "positional"); ("etymology", "Latin ad-")]);
    ("AB", [("meaning", "away from"); ("type", "positional"); ("etymology", "Latin ab-")]);
    ("IM", [("meaning", "into"); ("type", "positional"); ("etymology", "Latin in-assimilated")]);
    ("IL", [("meaning", "into"); ("type", "positional"); ("etymology", "Latin in-assimilated")]);
    ("IR", [("meaning", "into"); ("type", "positional"); ("etymology", "Latin in-assimilated")]);
    ("IF", [("meaning", "into"); ("type", "positional"); ("etymology", "Latin in-assimilated")]);
    ("UN", [("meaning", "liberation/reversal"); ("type", "operational"); ("etymology", "Old English un-")]) ].

Definition OTHER_PREFIXES : Py.dict info :=
  [ ("RE", [("meaning", "again/back/renewal"); ("etymology", "Latin re-")]);
    ("BE", [("meaning", "causative/make"); ("etymology", "Old English be-")]);
    ("DE", [("meaning", "removal/down"); ("etymology", "Latin de-")]);
    ("BI", [("meaning", "by/at/near"); ("etymology", "Old English bi")]);
    ("UNDER", [("meaning", "beneath (UN+D+ER)"); ("etymology", "Old English")]);
    ("OVER", [("meaning", "above (O+V+ER)"); ("etymology", "Old English")]);
    ("CON", [("meaning", "together/with"); ("etymology", "Latin con-")]);
    ("COM", [("meaning", "together/with"); ("etymology", "Latin con-variant")]);
    ("SUB", [("meaning", "under/below"); ("etymology", "Latin sub-")]);
    ("SUP", [("meaning", "under"); ("etymology", "Latin sub-assimilated")]);
    ("PRE", [("meaning", "before/prior"); ("etymology", "Latin prae-")]);
    ("PRO", [("meaning", "forward/forth"); ("etymology", "Latin pro-")]);
    ("POST", [("meaning", "after/behind"); ("etymology", "Latin post-")]);
    ("ANTI", [("meaning", "against/opposite"); ("etymology", "Greek anti-")]);
    ("COUNTER", [("meaning", "against/opposite"); ("etymology", "Latin contra-")]);
    ("SUPER", [("meaning", "above/beyond"); ("etymology", "Latin super-")]);
    ("INTER", [("meaning", "between/among"); ("etymology", "Latin inter-")]);
    ("TRANS", [("meaning", "across/through"); ("etymology", "Latin trans-")]);
    ("CIRCUM", [("meaning", "around"); ("etymology", "Latin circum-")]);
    ("PER", [("meaning", "through/thoroughly"); ("etymology", "Latin per-")]);
    ("EXTRA", [("meaning", "outside/beyond"); ("etymology", "Latin extra-")]);
    ("INTRA", [("meaning", "within"); ("etymology", "Latin intra-")]);
    ("WITH", [("meaning", "together/against"); ("etymology", "Old English")]);
    ("OUT", [("meaning", "beyond/external"); ("etymology", "Old English")]);
    ("DOWN", [("meaning", "downward"); ("etymology", "Old English")]);
    ("UP", [("meaning", "upward"); ("etymology", "Old English")]);
    ("FOR", [("meaning", "away/prohibition"); ("etymology", "Old English")]);
    ("FORE", [("meaning", "before/front"); ("etymology", "Old English")]);
    ("AFTER", [("meaning", "following"); ("etymology", "Old English")]);
    ("MID", [("meaning", "middle"); ("etymology", "Old English")]);
    ("DIS", [("meaning", "apart/away"); ("etymology", "Latin dis-")]);
    ("EN", [("meaning", "cause to be in"); ("etymology", "Latin en-")]);
    ("EM", [("meaning", "cause to be in"); ("etymology", "Latin en-variant")]);
    ("NON", [("meaning", "not/without"); ("etymology", "Latin non-")]);
    ("MIS", [("meaning", "wrong/bad"); ("etymology", "Old English")]);
    ("MAL", [("meaning", "bad/evil"); ("etymology", "Latin male-")]);
    ("HYPER", [("meaning", "over/excessive"); ("etymology", "Greek hyper-")]);
    ("HYPO", [("meaning", "under/below"); ("etymology", "Greek hypo-")]);
    ("META", [("meaning", "beyond/change"); ("etymology", "Greek meta-")]);
    ("PARA", [("meaning", "beside/beyond"); ("etymology", "Greek para-")]);
    ("PROTO", [("meaning", "first/original"); ("etymology", "Greek protos-")]);
    ("SYN", [("meaning", "together"); ("etymology", "Greek syn-")]);
    ("SYM", [("meaning", "together"); ("etymology", "Greek syn-variant")]);
    ("NEO", [("meaning", "new"); ("etymology", "Greek neos-")]);
    ("PALEO", [("meaning", "old/ancient"); ("etymology", "Greek palaios-")]);
    ("AUTO", [("meaning", "self"); ("etymology", "Greek autos-")]);
    ("MONO", [("meaning", "one/single"); ("etymology", "Greek monos-")]);
    ("UNI", [("meaning", "one/single"); ("etymology", "Latin unus-")]);
    ("MULTI", [("meaning", "many"); ("etymology", "Latin multus-")]);
    ("POLY", [("meaning", "many"); ("etymology", "Greek polys-")]);
    ("SEMI", [("meaning", "half"); ("etymology", "Latin semi-")]);
    ("OMNI", [("meaning", "all"); ("etymology", "Latin omnis-")]);
    ("DIA", [("meaning", "through/across"); ("etymology", "Greek dia-")]);
    ("EPI", [("meaning", "upon/over"); ("etymology", "Greek epi-")]);
    ("AMPHI", [("meaning", "both/around"); ("etymology", "Greek amphi-")]);
    ("PERI", [("meaning", "around/near"); ("etymology", "Greek peri-")]);
    ("E", [("meaning", "out"); ("etymology", "Latin ex-variant")]);
    ("A", [("meaning", "to/toward or not"); ("etymology", "Latin ad-/Greek a-")]) ].

Definition FULL_WORD_SUFFIXES : Py.dict info :=
  [ ("MENT", [("meaning", "the mind"); ("etymology", "Latin mente"); ("note", "mental operation")]);
    ("HOOD", [("meaning", "territory/covering"); ("etymology", "Old English"); ("note", "protected domain")]);
    ("SHIP", [("meaning", "vessel/journey"); ("etymology", "Old English"); ("note", "carrying relationship")]);
    ("DOM", [("meaning", "dominion/rule"); ("etymology", "Old English"); ("note", "territory of power")]);
    ("NESS", [("meaning", "projection/manifestation"); ("etymology", "Old English/Norse"); ("note", "state extended into form")]);
    ("ABLE", [("meaning", "ability/capable"); ("etymology", "Latin habilis"); ("note", "potential state")]);
    ("IBLE", [("meaning", "is-ability"); ("etymology", "Latin"); ("note", "current ability state (IS+ABLE)")]);
    ("FUL", [("meaning", "full of"); ("etymology", "Old English full"); ("note", "filled with quality")]);
    ("LESS", [("meaning", "without/lacking"); ("etymology", "Old English leas"); ("note", "absence of quality")]) ].

Definition STANCE_SUFFIXES : Py.dict info :=
  [ ("ISH", [("meaning", "positioned toward"); ("note", "tending toward quality")]);
    ("IST", [("meaning", "practitioner/believer"); ("note", "one who takes position")]);
    ("ISM", [("meaning", "system/doctrine"); ("note", "the position as doctrine")]);
    ("Y", [("meaning", "positioned in"); ("note", "located within quality")]) ].

Definition COMMON_ROOTS : Py.dict info :=
  [ ("JECT", [("meaning", "throw/cast"); ("etymology", "Latin iacere")]);
    ("TENT", [("meaning", "stretch/aim"); ("etymology", "Latin tendere")]);
    ("TION", [("meaning", "tension/stretching"); ("etymology", "Latin tensio")]);
    ("TENTION", [("meaning", "stretching state"); ("etymology", "Latin tensio")]);
    ("PRESS", [("meaning", "press/push"); ("etymology", "Latin premere")]);
    ("CESS", [("meaning", "go/yield/proceed"); ("etymology", "Latin cedere")]);
    ("CEDE", [("meaning", "go/yield"); ("etymology", "Latin cedere")]);
    ("CEIVE", [("meaning", "take/receive"); ("etymology", "Latin capere")]);
    ("CEPT", [("meaning", "take/seize"); ("etymology", "Latin capere")]);
    ("GRESS", [("meaning", "step/walk"); ("etymology", "Latin gradi")]);
    ("SERV", [("meaning", "serve/watch/keep"); ("etymology", "Latin servare")]);
    ("FORM", [("meaning", "shape/structure"); ("etymology", "Latin forma")]);
    ("PORT", [("meaning", "carry"); ("etymology", "Latin portare")]);
    ("VANCE", [("meaning", "advance/move"); ("etymology", "Latin")]);
    ("PERI", [("meaning", "try/test"); ("etymology", "Latin periri")]);
    ("FIRM", [("meaning", "strong/fixed"); ("etymology", "Latin firmus")]) ].

Definition TRUE_OPERATORS : list string :=
  [ "ER"; "ING"; "ED"; "TION"; "ION"; "SION"; "AL"; "LY"; 
    "ES"; "S"; "EST"; "AGE"; "ANCE"; "ENCE"; "ANT"; "ENT"; 
    "ARY"; "ORY"; "ATE"; "EE"; "ETTE"; "URE"; "TH"; "TRY"; 
    "IC"; "ICAL"; "ILE"; "INE"; "OID"; "OSE"; "OUS"; "WARD"; 
    "EN"; "FY"; "IFY"; "IZE"; "ISE"; "ATIVE"; "ITION" ].

Definition GREEK_ROOTS : Py.dict string :=
  [ ("BIO", "life");
    ("PSYCH", "mind/soul");
    ("GE", "earth");
    ("GEO", "earth");
    ("THE", "god");
    ("THEO", "god");
    ("PHOTO", "light");
    ("DEMO", "people");
    ("MON", "one");
    ("MONO", "one");
    ("ARISTO", "best");
    ("BUREAU", "desk");
    ("TELE", "far");
    ("PHON", "sound") ].

Definition GREEK_SUFFIXES : Py.dict string :=
  [ ("LOGY", "study");
    ("GRAPHY", "writing");
    ("ARCHY", "rule");
    ("CRACY", "power/rule");
    ("OLOGY", "study") ].

Definition SEMANTIC_SHADOWS : Py.dict string :=
  [ ("government", "govern-ment [govern the mind]");
    ("information", "in-formation [forming within/control]");
    ("representative", "re-present-ative [false re-presentation]") ].

Definition TECHNICAL_FIELDS : Py.dict (list string) :=
  [ ("mathematics", ["addition"; "subtraction"; "equation"; "integer"]);
    ("medicine", ["infection"; "injection"; "affliction"; "prescription"; "observation"]);
    ("law", ["objection"; "injunction"; "affidavit"; "indictment"]);
    ("science", ["observation"; "experiment"; "hypothesis"; "analysis"]);
    ("technology", ["application"; "interface"; "algorithm"; "instruction"]) ].

(** ** The parser's configuration ([__init__]) *)

Record config : Type := mkConfig {
  level : ParsingLevel.t;
  strictness : StrictnessLevel.t;
  flag_semantic : bool;
  show_alternatives : bool
}.

(** The defaults of [__init__]. *)
Definition default_config : config :=
  mkConfig ParsingLevel.STRUCTURAL StrictnessLevel.STANDARD true true.

(** [{**VCC_PREFIXES, **OTHER_PREFIXES}]; the two tables share no key. *)
Definition all_prefixes : Py.dict info := (VCC_PREFIXES ++ OTHER_PREFIXES)%list.

(** The prefixes, longest first. *)
Definition prefix_order : list string :=
  Py.sorted_by_len_desc (Py.keys all_prefixes).

(** ** Resonance calculation *)

Fixpoint master_get (d : list (N * string)) (n : N) : option string :=
  match d with
  | [] => None
  | (k, v) :: d' => if N.eqb n k then Some v else master_get d' n
  end.

(** [n in self.MASTER_NUMBERS]. *)
Definition in_master (n : N) : bool :=
  match master_get MASTER_NUMBERS n with
  | Some _ => true
  | None => false
  end.

(** [self.MASTER_NUMBERS[n]]. *)
Definition master_item (n : N) : outcome string :=
  match master_get MASTER_NUMBERS n with
  | Some v => Ok v
  | None => Raise KeyError
  end.

(** [self.TAP_ROOT.get(c, (0, ""))[0]]. *)
Definition tap_value (c : ascii) : N :=
  match Py.get TAP_ROOT (String c EmptyString) with
  | Some (v, _) => v
  | None => 0%N
  end.

Fixpoint sum_values (clean : string) : N :=
  match clean with
  | EmptyString => 0%N
  | String c s => (tap_value c + sum_values s)%N
  end.

(** The letters of the word, uppercased, and the sum of their values. *)
Definition resonance_clean (word : string) : string :=
  Py.filter Py.isalpha_char (Py.upper word).

Definition raw_total (word : string) : N := sum_values (resonance_clean word).

(** The test of the reduction loop. *)
Definition keeps_reducing (reduced : N) : bool :=
  (9 <? reduced)%N && negb (in_master reduced).

(** [while reduced > 9 and reduced not in self.MASTER_NUMBERS:
       reduced = sum(int(d) for d in str(reduced))] *)
Fixpoint reduce_loop (fuel : nat) (reduced : N) : outcome N :=
  if keeps_reducing reduced then
    match fuel with
    | O => OutOfFuel
    | S fuel' =>
        reduced' <- Py.sum_int_chars (Py.str_of_N reduced) ;;
        reduce_loop fuel' reduced'
    end
  else Ok reduced.

(** Every turn of the loop lowers [reduced], so one turn per unit of the
    starting value is enough ([reduce_loop_enough] below). *)
Definition loop_fuel (total : N) : nat := S (N.to_nat total).

Definition arrow : string := "→".

Definition calculate_resonance (word : string) : outcome string :=
  let total := raw_total word in
  reduced <- reduce_loop (loop_fuel total) total ;;
  if N.eqb total reduced then
    let result := Py.str_of_N total in
    if in_master total then
      label <- master_item total ;;
      Ok (result ++ " (" ++ label ++ ")")
    else Ok result
  else
    let result := Py.str_of_N total ++ arrow ++ Py.str_of_N reduced in
    if in_master reduced then
      label <- master_item reduced ;;
      Ok (result ++ " (" ++ label ++ ")")
    else Ok result.

(** ** V+CC detection with the tilde positional clause *)

(** [base_start and base_start[0].isalpha() and base_start[0] not in 'AEIOU'] *)
Definition starts_with_consonant (base_start : string) : bool :=
  match base_start with
  | EmptyString => false
  | String c _ => Py.isalpha_char c && negb (Py.char_in c "AEIOU")
  end.

(** The body of [for prefix in self.VCC_PREFIXES], over the keys left. *)
Fixpoint detect_vcc_loop (prefixes : list string) (word_upper : string)
  : outcome (bool * option string * option string) :=
  match prefixes with
  | [] => Ok (false, None, None)
  | prefix :: rest =>
      if Py.startswith word_upper prefix
         && (Py.len prefix <? Py.len word_upper)%nat
      then
        let base_start := Py.drop (Py.len prefix) word_upper in
        if starts_with_consonant base_start then
          entry <- Py.item VCC_PREFIXES prefix ;;
          prefix_type <- Py.item entry "type" ;;
          if String.eqb prefix_type "positional"
          then Ok (true, Some prefix, Some "tilde")
          else Ok (true, Some prefix, Some "hyphen")
        else detect_vcc_loop rest word_upper
      else detect_vcc_loop rest word_upper
  end.

Definition detect_vcc (word : string)
  : outcome (bool * option string * option string) :=
  detect_vcc_loop (Py.keys VCC_PREFIXES) (Py.upper word).

(** ** Component extraction *)

Record parts : Type := mkParts {
  prefix : option string;
  base : string;
  suffix : option string
}.

(** [for p in self.prefix_order: if ...: prefix = p; base = ...; break] *)
Fixpoint prefix_loop (order : list string) (word_upper : string)
  (prefix : option string) (base : string) : option string * string :=
  match order with
  | [] => (prefix, base)
  | p :: rest =>
      if Py.startswith word_upper p && (Py.len p <? Py.len word_upper)%nat
      then (Some p, Py.drop (Py.len p) word_upper)
      else prefix_loop rest word_upper prefix base
  end.

(** [for s in ...: if base.endswith(s) and len(base) > len(s):
       suffix = s; base = base[:-len(s)]; break] *)
Fixpoint suffix_loop (candidates : list string)
  (suffix : option string) (base : string) : option string * string :=
  match candidates with
  | [] => (suffix, base)
  | s :: rest =>
      if Py.endswith base s && (Py.len s <? Py.len base)%nat
      then (Some s, Py.drop_last (Py.len s) base)
      else suffix_loop rest suffix base
  end.

Definition extract_components (word : string) : parts :=
  let word_upper := Py.upper word in
  let '(prefix, base) := prefix_loop prefix_order word_upper None word_upper in
  let '(suffix, base) :=
    suffix_loop (Py.sorted_by_len_desc (Py.keys FULL_WORD_SUFFIXES)) None base in
  let '(suffix, base) :=
    if negb (Py.truthy_opt suffix)
    then suffix_loop (Py.sorted_by_len_desc (Py.keys STANCE_SUFFIXES)) suffix base
    else (suffix, base) in
  let '(suffix, base) :=
    if negb (Py.truthy_opt suffix)
    then suffix_loop (Py.sorted_by_len_desc TRUE_OPERATORS) suffix base
    else (suffix, base) in
  mkParts prefix base suffix.

(** ** Greek compound detection *)

Definition is_greek_compound (word : string) : bool :=
  let word_upper := Py.upper word in
  existsb
    (fun root =>
       Py.startswith word_upper root
       && existsb (fun suffix => Py.contains word_upper suffix)
                  (Py.keys GREEK_SUFFIXES))
    (Py.keys GREEK_ROOTS).

(** [for root in self.GREEK_ROOTS: if word_upper.startswith(root): return ...] *)
Fixpoint cracy_loop (roots : list string) (word_upper : string) : option string :=
  match roots with
  | [] => None
  | root :: rest =>
      if Py.startswith word_upper root
      then Some (root ++ "~CRA-CY")
      else cracy_loop rest word_upper
  end.

Fixpoint standard_greek_loop (roots : list string) (word_upper : string)
  : option string :=
  match roots with
  | [] => None
  | root :: rest =>
      if Py.startswith word_upper root then
        let rest_of_word := Py.drop (Py.len root) word_upper in
        if Py.mem GREEK_SUFFIXES rest_of_word
        then Some (root ++ "~" ++ rest_of_word)
        else standard_greek_loop rest word_upper
      else standard_greek_loop rest word_upper
  end.

Definition parse_greek (word : string) : string :=
  let word_upper := Py.upper word in
  let special :=
    if Py.contains word_upper "CRACY"
    then cracy_loop (Py.keys GREEK_ROOTS) word_upper
    else None in
  match special with
  | Some r => r
  | None =>
      match standard_greek_loop (Py.keys GREEK_ROOTS) word_upper with
      | Some r => r
      | None => word_upper
      end
  end.

(** ** The main parsing function *)

(** [''.join(c for c in original if c.isalnum() or c in "-_~'")] *)
Definition word_chars : string := "-_~'".

Definition clean_word (original : string) : string :=
  Py.filter (fun c => Py.isalnum_char c || Py.char_in c word_chars) original.

(** [tier or 2] *)
Definition tier_or (tier : option Z) (default : Z) : Z :=
  match tier with
  | Some t => if Z.eqb t 0 then default else t
  | None => default
  end.

(** [len(vcc_prefix)] and [self.VCC_PREFIXES[vcc_prefix]], where
    [vcc_prefix] is [None] when the detector did not fire. *)
Definition len_opt (o : option string) : outcome nat :=
  match o with
  | Some s => Ok (Py.len s)
  | None => Raise TypeError
  end.

Definition item_opt {V : Type} (d : Py.dict V) (o : option string) : outcome V :=
  match o with
  | Some k => Py.item d k
  | None => Raise KeyError
  end.

Definition opt_eqb (o : option string) (s : string) : bool :=
  match o with
  | Some x => String.eqb x s
  | None => false
  end.

(** The three [if components[...]: parts.append(...)] of the structural
    and ceremonial levels. *)
Definition present_parts (components : parts) : list string :=
  ((if Py.truthy_opt (prefix components) then [Py.fmt_opt (prefix components)] else [])
   ++ (if Py.truthy (base components) then [base components] else [])
   ++ (if Py.truthy_opt (suffix components) then [Py.fmt_opt (suffix components)] else []))%list.

(** [f"{text}[{info['meaning']}]"] *)
Definition with_meaning (text : string) (entry : info) : outcome string :=
  meaning <- Py.item entry "meaning" ;;
  Ok (text ++ "[" ++ meaning ++ "]").

(** The glossary of the educational level. *)
Definition educational_parts (components : parts) : outcome (list string) :=
  from_prefix <-
    (match prefix components with
     | Some prefix =>
         if Py.truthy prefix then
           if Py.mem VCC_PREFIXES prefix then
             entry <- Py.item VCC_PREFIXES prefix ;;
             part <- with_meaning prefix entry ;;
             Ok [part]
           else if Py.mem OTHER_PREFIXES prefix then
             entry <- Py.item OTHER_PREFIXES prefix ;;
             part <- with_meaning prefix entry ;;
             Ok [part]
           else Ok [prefix]
         else Ok []
     | None => Ok []
     end) ;;
  from_base <-
    (let base := base components in
     if Py.truthy base then
       if Py.mem COMMON_ROOTS base then
         entry <- Py.item COMMON_ROOTS base ;;
         part <- with_meaning base entry ;;
         Ok [part]
       else Ok [base]
     else Ok []) ;;
  from_suffix <-
    (match suffix components with
     | Some suffix =>
         if Py.truthy suffix then
           if Py.mem FULL_WORD_SUFFIXES suffix then
             entry <- Py.item FULL_WORD_SUFFIXES suffix ;;
             part <- with_meaning suffix entry ;;
             Ok [part]
           else if Py.mem STANCE_SUFFIXES suffix then
             entry <- Py.item STANCE_SUFFIXES suffix ;;
             part <- with_meaning suffix entry ;;
             Ok [part]
           else Ok [suffix]
         else Ok []
     | None => Ok []
     end) ;;
  Ok (from_prefix ++ from_base ++ from_suffix)%list.

(** "Build parsed form based on level". *)
Definition render (cfg : config) (word_clean : string) (is_shadow : bool)
  (alternatives : list string) (vcc_detected : bool)
  (separator : option string) (components : parts) : outcome string :=
  match level cfg with
  | ParsingLevel.CASUAL =>
      match alternatives with
      | alternative :: _ => if is_shadow then Ok alternative else Ok word_clean
      | [] => Ok word_clean
      end
  | ParsingLevel.STRUCTURAL =>
      let parts := present_parts components in
      if vcc_detected && opt_eqb separator "tilde" then
        let parsed :=
          Py.fmt_opt (prefix components) ++ "~" ++ base components in
        if Py.truthy_opt (suffix components)
        then Ok (parsed ++ "-" ++ Py.fmt_opt (suffix components))
        else Ok parsed
      else Ok (Py.join "-" parts)
  | ParsingLevel.CEREMONIAL =>
      Ok (Py.join "_" (present_parts components))
  | ParsingLevel.EDUCATIONAL =>
      parts_with_meaning <- educational_parts components ;;
      if vcc_detected && opt_eqb separator "tilde" then
        head <- Py.first parts_with_meaning ;;
        Ok (head ++ "~" ++ Py.join "~" (tl parts_with_meaning))
      else Ok (Py.join "-" parts_with_meaning)
  end.

(** [for field, terms in self.TECHNICAL_FIELDS.items(): ...; break] *)
Fixpoint field_loop (fields : Py.dict (list string)) (lowered : string)
  : option string :=
  match fields with
  | [] => None
  | (field, terms) :: rest =>
      if existsb (String.eqb lowered) terms
      then Some field
      else field_loop rest lowered
  end.

(** [d.get(k, {})] and [a.get(k) or b.get(k) or {}]; an empty dictionary
    counts as false. *)
Definition get_or_empty (d : Py.dict info) (k : string) : info :=
  match Py.get d k with
  | Some entry => entry
  | None => []
  end.

Definition first_nonempty (a b : option info) : info :=
  match a with
  | Some ((_ :: _) as entry) => entry
  | _ =>
      match b with
      | Some ((_ :: _) as entry) => entry
      | _ => []
      end
  end.

Definition component_details (components : parts) : list component :=
  ((match prefix components with
    | Some p =>
        if Py.truthy p
        then [mkComponent "prefix" p (get_or_empty all_prefixes p)]
        else []
    | None => []
    end)
   ++ (if Py.truthy (base components)
       then [mkComponent "base" (base components)
               (get_or_empty COMMON_ROOTS (base components))]
       else [])
   ++ (match suffix components with
       | Some s =>
           if Py.truthy s
           then [mkComponent "suffix" s
                   (first_nonempty (Py.get FULL_WORD_SUFFIXES s)
                                   (Py.get STANCE_SUFFIXES s))]
           else []
       | None => []
       end))%list.

(** The local variables of [parse_word] that the shadow checks update. *)
Record shadow_state : Type := mkShadow {
  st_is_shadow : bool;
  st_shadow_types : list ShadowType.t;
  st_warnings : list string;
  st_alternatives : list string;
  st_tier : option Z
}.

Definition initial_shadow : shadow_state := mkShadow false [] [] [] None.

(** "Check semantic shadow". *)
Definition check_semantic (cfg : config) (word_clean : string)
  (st : shadow_state) : outcome shadow_state :=
  if flag_semantic cfg && Py.mem SEMANTIC_SHADOWS (Py.lower word_clean) then
    note <- Py.item SEMANTIC_SHADOWS (Py.lower word_clean) ;;
    Ok (mkShadow true
          (Py.append (st_shadow_types st) ShadowType.SEMANTIC)
          (Py.append (st_warnings st) ("Semantic control: " ++ note))
          (st_alternatives st)
          (Some 1%Z))
  else Ok st.

(** "Check V+CC": the updated variables and the polarity. *)
Definition check_vcc (word_upper : string) (vcc_detected : bool)
  (vcc_prefix separator : option string) (st : shadow_state)
  : outcome (shadow_state * string) :=
  if vcc_detected then
    let tier := tier_or (st_tier st) 2 in
    n <- len_opt vcc_prefix ;;
    let base := Py.drop n word_upper in
    prefix_info <- item_opt VCC_PREFIXES vcc_prefix ;;
    if opt_eqb separator "tilde" then
      Ok (mkShadow true
            (Py.append (st_shadow_types st) ShadowType.STRUCTURAL)
            (Py.append (st_warnings st)
               ("V+CC shadow: " ++ Py.fmt_opt vcc_prefix
                ++ " positional - tilde neutralizes"))
            (Py.append (st_alternatives st)
               (Py.fmt_opt vcc_prefix ++ "~" ++ base))
            (Some tier),
          "Sovereign with tilde (positional union)")
    else
      Ok (mkShadow true
            (Py.append (st_shadow_types st) ShadowType.STRUCTURAL)
            (Py.append (st_warnings st)
               ("V+CC shadow: " ++ Py.fmt_opt vcc_prefix
                ++ " operational - hyphen required"))
            (Py.append (st_alternatives st)
               (Py.fmt_opt vcc_prefix ++ "-" ++ base))
            (Some tier),
          "Shadow (operational, use hyphen or avoid)")
  else Ok (st, "Sovereign").

(** The early return of a Greek compound. *)
Definition greek_analysis (original word_clean : string) : outcome GlyphAnalysis :=
  let parsed := parse_greek word_clean in
  resonance <- calculate_resonance word_clean ;;
  Ok (mkGlyphAnalysis original parsed "Sovereign (Greek compound)" resonance
        false [] [] [] [] None None
        (Some "Greek compound with tilde flow")).

Definition parse_word (cfg : config) (word : string) : outcome GlyphAnalysis :=
  let original := Py.strip word in
  let word_clean := clean_word original in
  let word_upper := Py.upper word_clean in
  if is_greek_compound word_clean then greek_analysis original word_clean
  else
    st <- check_semantic cfg word_clean initial_shadow ;;
    '(vcc_detected, vcc_prefix, separator) <- detect_vcc word_clean ;;
    '(st, polarity) <- check_vcc word_upper vcc_detected vcc_prefix separator st ;;
    let components := extract_components word_clean in
    parsed <- render cfg word_clean (st_is_shadow st) (st_alternatives st)
                vcc_detected separator components ;;
    resonance <- calculate_resonance word_clean ;;
    let field_context := field_loop TECHNICAL_FIELDS (Py.lower word_clean) in
    Ok (mkGlyphAnalysis original parsed polarity resonance
          (st_is_shadow st) (st_shadow_types st)
          (component_details components)
          (st_warnings st) (st_alternatives st) (st_tier st)
          field_context None).

(** ** Document parsing *)

(** [re.findall(r'\b[\w\-\_\~\']+\b', text)] *)
Module Re.

(** [\w] *)
Definition is_word_char (c : ascii) : bool :=
  Py.isalnum_char c || Ascii.eqb c "_".

(** [[\w\-\_\~\']] *)
Definition in_class (c : ascii) : bool :=
  is_word_char c || Py.char_in c "-_~'".

Definition word_at (text : string) (i : nat) : bool :=
  match String.get i text with
  | Some c => is_word_char c
  | None => false
  end.

(** [\b] at position [i]: a word character on exactly one side. *)
Definition word_boundary (text : string) (i : nat) : bool :=
  xorb (match i with O => false | S j => word_at text j end) (word_at text i).

(** The longest run of class characters at the head of [s]. *)
Fixpoint run_length (s : string) : nat :=
  match s with
  | EmptyString => O
  | String c s' => if in_class c then S (run_length s') else O
  end.

(** The greedy [+] gives back one character at a time until the closing
    [\b] holds; [n] characters are still taken. *)
Fixpoint backtrack (text : string) (i n : nat) : option nat :=
  match n with
  | O => None
  | S k => if word_boundary text (i + n) then Some n else backtrack text i k
  end.

(** [\b[\w\-\_\~\']+\b] at position [i]: the length of the match, if
    there is one. *)
Definition word_at_pos (text : string) (i : nat) : option nat :=
  if word_boundary text i
  then backtrack text i (run_length (Py.drop i text))
  else None.

(** [\b[\w\-\_\~\']+\b|[^\w\s]] at position [i]: a word, or else one
    character that is neither a word character nor white space. *)
Definition token_at_pos (text : string) (i : nat) : option nat :=
  match word_at_pos text i with
  | Some n => Some n
  | None =>
      match String.get i text with
      | Some c =>
          if negb (is_word_char c) && negb (Py.isspace_char c)
          then Some 1 else None
      | None => None
      end
  end.

(** The scan of [findall] for a pattern that matches no empty string:
    [rest] is the text from position [i] on, and [skip] counts the
    characters of the last match still to pass. *)
Fixpoint scan (pattern : string -> nat -> option nat) (text : string)
  (skip i : nat) (rest : string) : list string :=
  match rest with
  | EmptyString => []
  | String _ rest' =>
      match skip with
      | S k => scan pattern text k (S i) rest'
      | O =>
          match pattern text i with
          | Some n => Py.take n rest :: scan pattern text (n - 1) (S i) rest'
          | None => scan pattern text 0 (S i) rest'
          end
      end
  end.

Definition findall (pattern : string -> nat -> option nat) (text : string)
  : list string :=
  scan pattern text 0 0 text.

Definition findall_words (text : string) : list string :=
  findall word_at_pos text.

Definition findall_tokens (text : string) : list string :=
  findall token_at_pos text.

(** [re.match(r'[\w\-\_\~\']+', word)], as a truth value. *)
Definition starts_in_class (word : string) : bool :=
  match word with
  | EmptyString => false
  | String c _ => in_class c
  end.

End Re.

(** The loop of [parse_document] over the tokens left. *)
Fixpoint parse_tokens (cfg : config) (tokens : list string) : outcome (list string) :=
  match tokens with
  | [] => Ok []
  | word :: rest =>
      if Re.starts_in_class word then
        analysis <- parse_word cfg word ;;
        parsed_words <- parse_tokens cfg rest ;;
        Ok (parsed analysis :: parsed_words)
      else
        parsed_words <- parse_tokens cfg rest ;;
        Ok (word :: parsed_words)
  end.

Definition parse_document (cfg : config) (text : string) : outcome string :=
  parsed_words <- parse_tokens cfg (Re.findall_tokens text) ;;
  Ok (Py.join " " parsed_words).

(** The value of [sovereignty_score]: an [int] or a [float]. *)
Inductive number : Type :=
| PyInt (z : Z)
| PyFloat (f : float).

(** [float(n)] for a count; exact below [2^53]. *)
Definition float_of_N (n : N) : float :=
  PrimFloat.of_uint63 (Uint63.of_Z (Z.of_N n)).

(** [a / b] on counts. *)
Definition truediv (a b : N) : outcome float :=
  if N.eqb b 0 then Raise ZeroDivisionError
  else Ok (PrimFloat.div (float_of_N a) (float_of_N b)).

Record DocumentStatistics : Type := mkStats {
  total_words : N;
  shadow_count : N;
  structural_shadows : list string;
  semantic_shadows : list string;
  sovereignty_score : number
}.

(** [x in l] for shadow types. *)
Definition has_type (x : ShadowType.t) (l : list ShadowType.t) : bool :=
  existsb (ShadowType.eqb x) l.

(** The loop of [analyze_document] over the words left, with its three
    accumulators. *)
Fixpoint analyze_loop (cfg : config) (words : list string)
  (shadow_count : N) (structural semantic : list string)
  : outcome (N * list string * list string) :=
  match words with
  | [] => Ok (shadow_count, structural, semantic)
  | word :: rest =>
      analysis <- parse_word cfg word ;;
      if is_shadow analysis then
        let structural :=
          if has_type ShadowType.STRUCTURAL (shadow_types analysis)
          then Py.append structural word else structural in
        let semantic :=
          if has_type ShadowType.SEMANTIC (shadow_types analysis)
          then Py.append semantic word else semantic in
        analyze_loop cfg rest (shadow_count + 1)%N structural semantic
      else analyze_loop cfg rest shadow_count structural semantic
  end.

(** [((total_words - shadow_count) / total_words * 100) if total_words > 0 else 0] *)
Definition score_of (total_words shadow_count : N) : outcome number :=
  if (0 <? total_words)%N then
    q <- truediv (total_words - shadow_count) total_words ;;
    Ok (PyFloat (PrimFloat.mul q (float_of_N 100)))
  else Ok (PyInt 0).

Definition analyze_document (cfg : config) (text : string)
  : outcome DocumentStatistics :=
  let words := Re.findall_words text in
  let total_words := N.of_nat (length words) in
  '(shadow_count, structural, semantic) <- analyze_loop cfg words 0%N [] [] ;;
  sovereignty_score <- score_of total_words shadow_count ;;
  Ok (mkStats total_words shadow_count structural semantic sovereignty_score).

(** What the report needs from the interpreter: the order in which a [set]
    built from a list is iterated, and the [:.1f] format of a number. *)
Record runtime : Type := mkRuntime {
  set_iter : list string -> list string;
  format_1f : number -> string
}.

(** A [set] holds each element of the list once, in some order. *)
Definition set_like (rt : runtime) : Prop :=
  forall l, Permutation (set_iter rt l) (nodup string_dec l).

Definition level_name (l : ParsingLevel.t) : string :=
  match l with
  | ParsingLevel.CASUAL => "CASUAL"
  | ParsingLevel.STRUCTURAL => "STRUCTURAL"
  | ParsingLevel.CEREMONIAL => "CEREMONIAL"
  | ParsingLevel.EDUCATIONAL => "EDUCATIONAL"
  end.

Definition strictness_name (l : StrictnessLevel.t) : string :=
  match l with
  | StrictnessLevel.PERMISSIVE => "PERMISSIVE"
  | StrictnessLevel.STANDARD => "STANDARD"
  | StrictnessLevel.RIGOROUS => "RIGOROUS"
  end.

(** ["="*72] *)
Fixpoint repeat_char (c : ascii) (n : nat) : string :=
  match n with
  | O => EmptyString
  | S k => String c (repeat_char c k)
  end.

Definition rule : string := repeat_char "=" 72.

(** [f"  • {word} → {word_analysis.parsed}"] *)
Definition bullet_line (word parsed : string) : string :=
  "  • " ++ word ++ " → " ++ parsed.

(** [for word in ...: word_analysis = self.parse_word(word); report.append(...)] *)
Fixpoint bullet_lines (cfg : config) (words : list string) : outcome (list string) :=
  match words with
  | [] => Ok []
  | word :: rest =>
      word_analysis <- parse_word cfg word ;;
      lines <- bullet_lines cfg rest ;;
      Ok (bullet_line word (parsed word_analysis) :: lines)
  end.

(** [f"  ... and {len(shadows) - 10} more"] *)
Definition more_line (shadows : list string) : string :=
  "  ... and " ++ Py.str_of_N (N.of_nat (length shadows) - 10) ++ " more".

(** The lines of the structural section of the report. *)
Definition structural_section (rt : runtime) (cfg : config) (shadows : list string)
  : outcome (list string) :=
  match shadows with
  | [] => Ok []
  | _ :: _ =>
      let title :=
        "STRUCTURAL SHADOWS (V+CC): " ++ Py.str_of_N (N.of_nat (length shadows)) in
      lines <- bullet_lines cfg (set_iter rt (firstn 10 shadows)) ;;
      let note :=
        if (10 <? length shadows)%nat then [more_line shadows] else [] in
      Ok ([title] ++ lines ++ note ++ [""])%list
  end.

(** The lines of the semantic section of the report. *)
Definition semantic_section (rt : runtime) (cfg : config) (shadows : list string)
  : outcome (list string) :=
  match shadows with
  | [] => Ok []
  | _ :: _ =>
      let title :=
        "SEMANTIC SHADOWS (Control Language): "
        ++ Py.str_of_N (N.of_nat (length shadows)) in
      lines <- bullet_lines cfg (set_iter rt shadows) ;;
      Ok ([title] ++ lines ++ [""])%list
  end.

(** The list [report] of [generate_report], before it is joined. *)
Definition report_lines (rt : runtime) (cfg : config) (text : string)
  : outcome (list string) :=
  analysis <- analyze_document cfg text ;;
  let head :=
    [ rule;
      "CODEXGLYPH DOCUMENT ANALYSIS REPORT";
      "Parsing Level: " ++ level_name (level cfg);
      "Strictness: " ++ strictness_name (strictness cfg);
      rule;
      "";
      "Total Words: " ++ Py.str_of_N (total_words analysis);
      "Shadow Glyphs: " ++ Py.str_of_N (shadow_count analysis);
      "Sovereignty Score: " ++ format_1f rt (sovereignty_score analysis) ++ "%";
      "" ] in
  structural <- structural_section rt cfg (structural_shadows analysis) ;;
  semantic <- semantic_section rt cfg (semantic_shadows analysis) ;;
  Ok (head ++ structural ++ semantic ++ [rule])%list.

Definition newline : string := String (ascii_of_N 10) EmptyString.

Definition generate_report (rt : runtime) (cfg : config) (text : string)
  : outcome string :=
  report <- report_lines rt cfg text ;;
  Ok (Py.join newline report).

(** ** Notions used in the statements *)

(** The sum of the digits of a decimal numeral. *)
Fixpoint digit_sum (d : Decimal.uint) : N :=
  match d with
  | Decimal.Nil => 0
  | Decimal.D0 d => digit_sum d
  | Decimal.D1 d => 1 + digit_sum d
  | Decimal.D2 d => 2 + digit_sum d
  | Decimal.D3 d => 3 + digit_sum d
  | Decimal.D4 d => 4 + digit_sum d
  | Decimal.D5 d => 5 + digit_sum d
  | Decimal.D6 d => 6 + digit_sum d
  | Decimal.D7 d => 7 + digit_sum d
  | Decimal.D8 d => 8 + digit_sum d
  | Decimal.D9 d => 9 + digit_sum d
  end%N.

(** Every entry of a table has the field [field]. *)
Definition all_have (field : string) (d : Py.dict info) : bool :=
  forallb (fun e => Py.mem (snd e) field) d.


(** The keys of [MASTER_NUMBERS]. *)
Definition master_numbers : list N := List.map fst MASTER_NUMBERS.

(** The analysis record of a word, for results known to be values. *)
Definition analysis_is (m : outcome GlyphAnalysis) (P : GlyphAnalysis -> Prop) : Prop :=
  exists r, m = Ok r /\ P r.

(** [x or ""] for a string that may be [None]. *)
Definition or_empty (o : option string) : string :=
  match o with
  | Some s => s
  | None => ""
  end.

(** What the detector returns: nothing, or a key of [VCC_PREFIXES] that
    starts the uppercased word and leaves a residual, with a separator. *)
Definition vcc_result (word_upper : string)
  (r : bool * option string * option string) : Prop :=
  r = (false, None, None)
  \/ exists p sep,
       r = (true, Some p, Some sep)
       /\ In p (Py.keys VCC_PREFIXES)
       /\ Py.startswith word_upper p = true
       /\ Py.len p < Py.len word_upper
       /\ (sep = "tilde" \/ sep = "hyphen").

(** [(total - shadow) / total * 100] in floating point. *)
Definition percent_sovereign (total shadow : N) : float :=
  PrimFloat.mul
    (PrimFloat.div (float_of_N (total - shadow)) (float_of_N total))
    (float_of_N 100).

(** A text of ten words, three of them shadows. *)
Definition ten_words : string :=
  "inform object unlock the cat sat on a red mat".

(** The word as [parse_word] matches it: stripped, then cleaned. *)
Definition cleaned (word : string) : string := clean_word (Py.strip word).

(** The Greek test in the spec's words: the uppercased word starts with a
    Greek root, and a Greek suffix occurs in the remainder after that
    root. *)
Definition greek_by_remainder (word_upper : string) : bool :=
  existsb
    (fun root =>
       Py.startswith word_upper root
       && existsb
            (fun suffix =>
               Py.contains (Py.drop (Py.len root) word_upper) suffix)
            (Py.keys GREEK_SUFFIXES))
    (Py.keys GREEK_ROOTS).

(** The record of the Greek early return, given its resonance string. *)
Definition greek_record (word resonance : string) : GlyphAnalysis :=
  mkGlyphAnalysis (Py.strip word) (parse_greek (cleaned word))
    "Sovereign (Greek compound)" resonance false [] [] [] [] None None
    (Some "Greek compound with tilde flow").

(** The tilde. *)
Definition tilde : ascii := "~"%char.

(** The configuration at a given level. *)
Definition at_level (lvl : ParsingLevel.t) (cfg : config) : config :=
  mkConfig lvl (strictness cfg) (flag_semantic cfg) (show_alternatives cfg).

(** The distinct elements of a list, in the order of their first
    occurrences. *)
Fixpoint distinct (seen l : list string) : list string :=
  match l with
  | [] => []
  | x :: l' =>
      if existsb (String.eqb x) seen then distinct seen l'
      else x :: distinct (x :: seen) l'
  end.

(** A text of eleven words, all of them structural shadows: ten times
    "inform", then "object". *)
Definition eleven_shadows : string :=
  "inform inform inform inform inform inform inform inform inform inform object".

(** A runtime that iterates a set in the order of the last occurrences and
    prints every score as "0.0"; used to run the reporter on examples. *)
Definition sample_runtime : runtime :=
  mkRuntime (nodup string_dec) (fun _ => "0.0").

(** The lines of the structural section, from its bullet lines. *)
Definition section_of (shadows lines : list string) : list string :=
  match shadows with
  | [] => []
  | _ :: _ =>
      ([("STRUCTURAL SHADOWS (V+CC): "
         ++ Py.str_of_N (N.of_nat (length shadows)))%string]
       ++ lines
       ++ (if (10 <? length shadows)%nat then [more_line shadows] else [])
       ++ [""%string])%list
  end.

(** [line] is the bullet line of [word], rendered by [parse_word]. *)
Definition bullet_of (cfg : config) (word line : string) : Prop :=
  analysis_is (parse_word cfg word) (fun a => line = bullet_line word (parsed a)).



(** The pattern the detector looks for: the uppercased word starts with
    the prefix and goes on with a consonant letter. *)
Definition vcc_shape (word_upper p : string) : bool :=
  Py.startswith word_upper p
  && starts_with_consonant (Py.drop (Py.len p) word_upper).

(** The separator of a V+CC prefix: the hyphen for UN, the tilde for the
    others. *)
Definition separator_of (p : string) : string :=
  if String.eqb p "UN" then "hyphen" else "tilde".

(** [p] starts the word and leaves a residual; [s] ends the base and leaves
    a residual. *)
Definition proper_prefix (word_upper p : string) : bool :=
  Py.startswith word_upper p && (Py.len p <? Py.len word_upper)%nat.

Definition proper_suffix (base s : string) : bool :=
  Py.endswith base s && (Py.len s <? Py.len base)%nat.

(** [x] is a longest element of [l] that passes the test; no element of
    [l] passes it. *)
Definition longest_of (test : string -> bool) (l : list string) (x : string)
  : Prop :=
  In x l /\ test x = true
  /\ forall y, In y l -> test y = true -> Py.len y <= Py.len x.

Definition none_of (test : string -> bool) (l : list string) : Prop :=
  forall y, In y l -> test y = false.

(** Longest first. *)
Definition by_len_desc (a b : string) : Prop := Py.len b <= Py.len a.

(** The residual that [extract_components] strips a suffix from: the
    uppercased word after the prefix. *)
Definition residual (word : string) : string :=
  Py.drop (Py.len (or_empty (prefix (extract_components word)))) (Py.upper word).

(** The four polarity labels. *)
Definition polarities : list string :=
  [ "Sovereign (Greek compound)";
    "Sovereign";
    "Sovereign with tilde (positional union)";
    "Shadow (operational, use hyphen or avoid)" ].

(** The tier that goes with a list of shadow types: 1 with the semantic
    tag, else 2 with the structural tag, else none. *)
Definition tier_of (types : list ShadowType.t) : option Z :=
  if has_type ShadowType.SEMANTIC types then Some 1%Z
  else if has_type ShadowType.STRUCTURAL types then Some 2%Z
  else None.

(** The detector fires on the cleaned word. *)
Definition vcc_fires (word : string) : bool :=
  match detect_vcc (cleaned word) with
  | Ok (fired, _, _) => fired
  | _ => false
  end.

(** The semantic check applies to the cleaned word. *)
Definition semantic_fires (cfg : config) (word : string) : bool :=
  flag_semantic cfg && Py.mem SEMANTIC_SHADOWS (Py.lower (cleaned word)).

(** The texts of the components of an analysis record. *)
Definition component_texts (r : GlyphAnalysis) : list string :=
  List.map c_text (components r).



(** The characters that cleaning keeps. *)
Definition kept_char (c : ascii) : bool :=
  Py.isalnum_char c || Py.char_in c word_chars.

(** Every character of the string passes the test. *)
Fixpoint all_chars (f : ascii -> bool) (s : string) : bool :=
  match s with
  | EmptyString => true
  | String c s' => f c && all_chars f s'
  end.

(** The record with another [original] field. *)
Definition with_original (o : string) (r : GlyphAnalysis) : GlyphAnalysis :=
  mkGlyphAnalysis o (parsed r) (polarity r) (resonance r) (is_shadow r)
    (shadow_types r) (components r) (warnings r) (alternatives r) (tier r)
    (field_context r) (educational_note r).




(** The word gets the structural tag; the semantic tag; either. *)
Definition structural_word (word : string) : bool :=
  negb (is_greek_compound (cleaned word)) && vcc_fires word.

Definition semantic_word (cfg : config) (word : string) : bool :=
  negb (is_greek_compound (cleaned word)) && semantic_fires cfg word.

Definition shadow_word (cfg : config) (word : string) : bool :=
  structural_word word || semantic_word cfg word.


(** The first and the last character of a token. *)
Definition first_char (token : string) : option ascii := String.get 0 token.

Definition last_char (token : string) : option ascii :=
  String.get (Py.len token - 1) token.

Definition is_word_opt (o : option ascii) : bool :=
  match o with
  | Some c => Re.is_word_char c
  | None => false
  end.

(** A well-formed word token: not empty, made of characters of the class,
    with a word character at each end. *)
Definition well_formed_token (token : string) : Prop :=
  token <> ""
  /\ all_chars Re.in_class token = true
  /\ is_word_opt (first_char token) = true
  /\ is_word_opt (last_char token) = true.

(** What the scan knows at position [i] when no match is under way: the
    character before is no word character, or no word character is left
    in the run of class characters that starts here. *)
Definition scan_invariant (text : string) (i : nat) : Prop :=
  (match i with O => false | S j => Re.word_at text j end) = false
  \/ forall k, k < Re.run_length (Py.drop i text) ->
               Re.word_at text (i + k) = false.

(** The token begins with a word character. *)
Definition wordy (token : string) : bool := is_word_opt (first_char token).

(** What [parse_document] puts in its output for a token: the parsed
    string of a token that begins with a word character, and any other
    token as it is. *)
Definition piece_of (cfg : config) (token piece : string) : Prop :=
  if wordy token
  then analysis_is (parse_word cfg token) (fun r => piece = parsed r)
  else piece = token /\ Py.len token = 1.
(** * Properties *)

(** ** The embedding on the words and texts of the source's demonstration *)

Example resonance_experiment : calculate_resonance "experiment" = Ok "129→3".
Proof. vm_compute. reflexivity. Qed.

Example resonance_empty : calculate_resonance "" = Ok "0".
Proof. vm_compute. reflexivity. Qed.

Example longest_prefixes_first :
  firstn 3 prefix_order = ["COUNTER"; "CIRCUM"; "UNDER"]
  /\ skipn 68 prefix_order = ["E"; "A"].
Proof. split; vm_compute; reflexivity. Qed.

Example parsed_democracy :
  analysis_is (parse_word default_config "democracy")
    (fun r => parsed r = "DEMO~CRA-CY").
Proof. eexists. split; [vm_compute; reflexivity | reflexivity]. Qed.

Example parsed_government :
  analysis_is (parse_word default_config "government")
    (fun r => parsed r = "GOVERN-MENT"
              /\ shadow_types r = [ShadowType.SEMANTIC]
              /\ tier r = Some 1%Z
              /\ warnings r = ["Semantic control: govern-ment [govern the mind]"]).
Proof. eexists. split; [vm_compute; reflexivity | repeat split]. Qed.

Example words_of_a_text :
  Re.findall_words "The cat's pajama-- is ~x~ a_b! -lead 'q' x--y"
  = ["The"; "cat's"; "pajama"; "is"; "x"; "a_b"; "lead"; "q"; "x--y"].
Proof. vm_compute. reflexivity. Qed.

Example tokens_of_a_text :
  Re.findall_tokens "un-do (it), ok--"
  = ["un-do"; "("; "it"; ")"; ","; "ok"; "-"; "-"].
Proof. vm_compute. reflexivity. Qed.

Example document_of_the_source :
  parse_document default_config
    "The government needs to understand the information."
  = Ok "THE GOVERN-MENT NEED-S TO UNDER-STAND THE IN~FORMA-TION .".
Proof. vm_compute. reflexivity. Qed.


(** ** Outcomes *)

Lemma returns_Ok {A : Type} (a : A) : returns (Ok a).
Proof. exists a; reflexivity. Qed.

Lemma returns_bind {A B : Type} (m : outcome A) (k : A -> outcome B) :
  returns m -> (forall a, m = Ok a -> returns (k a)) -> returns (bind m k).
Proof.
  intros [a Ha] Hk. rewrite Ha. simpl. apply Hk. exact Ha.
Qed.


#[local] Hint Resolve returns_Ok : core.

(** ** Strings *)

Lemma len_map f s : Py.len (Py.map f s) = Py.len s.
Proof. induction s as [|c s IH]; simpl; [reflexivity | now rewrite <- IH]. Qed.

Lemma len_upper s : Py.len (Py.upper s) = Py.len s.
Proof. apply len_map. Qed.

Lemma len_app a b : Py.len (a ++ b) = Py.len a + Py.len b.
Proof. induction a as [|c a IH]; simpl; [reflexivity | now rewrite <- IH]. Qed.


Lemma app_empty_r (s : string) : s ++ "" = s.
Proof. induction s as [|c s IH]; simpl; [reflexivity | now rewrite IH]. Qed.


Lemma take_drop n s : Py.take n s ++ Py.drop n s = s.
Proof.
  revert s; induction n as [|n IH]; intros [|c s]; simpl; try reflexivity.
  now rewrite IH.
Qed.

Lemma len_drop n s : Py.len (Py.drop n s) = Py.len s - n.
Proof.
  revert s; induction n as [|n IH]; intros [|c s]; simpl; try reflexivity.
  apply IH.
Qed.

Lemma len_take n s : n <= Py.len s -> Py.len (Py.take n s) = n.
Proof.
  revert s; induction n as [|n IH]; intros [|c s]; simpl; intros H;
    try reflexivity; try lia.
  rewrite IH; [reflexivity | lia].
Qed.

Lemma startswith_split w p :
  Py.startswith w p = true -> w = p ++ Py.drop (Py.len p) w.
Proof.
  revert w; induction p as [|a p IH]; intros w H; simpl in *.
  - reflexivity.
  - destruct w as [|b w]; [discriminate|].
    apply andb_prop in H. destruct H as [Hab Hp].
    apply Ascii.eqb_eq in Hab. subst b. simpl.
    f_equal. apply IH. exact Hp.
Qed.


Lemma endswith_split w s :
  Py.endswith w s = true -> w = Py.drop_last (Py.len s) w ++ s.
Proof.
  unfold Py.endswith, Py.drop_last. intros H.
  apply andb_prop in H. destruct H as [_ H].
  apply String.eqb_eq in H.
  rewrite <- H at 2. symmetry. apply take_drop.
Qed.

Lemma count_app c a b : Py.count c (a ++ b) = Py.count c a + Py.count c b.
Proof.
  induction a as [|x a IH]; simpl; [reflexivity|]. rewrite IH. lia.
Qed.

Lemma truthy_true s : Py.truthy s = true <-> s <> "".
Proof.
  unfold Py.truthy. destruct s; simpl; split; intros H; try discriminate;
    try reflexivity; congruence.
Qed.

Lemma startswith_contains w s : Py.startswith w s = true -> Py.contains w s = true.
Proof.
  intros H. destruct w; simpl in *; rewrite H; reflexivity.
Qed.

(** ** Dictionaries *)

Lemma mem_item {V : Type} (d : Py.dict V) k :
  Py.mem d k = true -> exists v, Py.get d k = Some v /\ Py.item d k = Ok v.
Proof.
  unfold Py.mem, Py.item. destruct (Py.get d k) as [v|]; [|discriminate].
  intros _. exists v. split; reflexivity.
Qed.

Lemma get_In {V : Type} (d : Py.dict V) k v :
  Py.get d k = Some v -> In (k, v) d.
Proof.
  induction d as [|[k' v'] d IH]; simpl; [discriminate|].
  destruct (String.eqb k k') eqn:E.
  - apply String.eqb_eq in E. subst k'. intros H. inversion H. now left.
  - intros H. right. now apply IH.
Qed.

Lemma In_keys_get {V : Type} (d : Py.dict V) k :
  In k (Py.keys d) -> exists v, Py.get d k = Some v.
Proof.
  induction d as [|[k' v'] d IH]; simpl; [intros []|].
  intros [H|H].
  - subst k'. rewrite String.eqb_refl. now exists v'.
  - destruct (String.eqb k k'); [now exists v' | now apply IH].
Qed.


Lemma all_have_get field d k entry :
  all_have field d = true -> Py.get d k = Some entry ->
  exists v, Py.item entry field = Ok v.
Proof.
  intros Hall Hget. apply get_In in Hget.
  unfold all_have in Hall. rewrite forallb_forall in Hall.
  specialize (Hall _ Hget). simpl in Hall.
  apply mem_item in Hall. destruct Hall as [v [_ Hv]]. now exists v.
Qed.

(** ** Resonance: the reduction loop ends *)


Lemma sum_int_chars_uint d :
  Py.sum_int_chars (NilEmpty.string_of_uint d) = Ok (digit_sum d).
Proof.
  induction d; cbn [NilEmpty.string_of_uint Py.sum_int_chars digit_sum];
    try reflexivity; rewrite IHd; reflexivity.
Qed.

Lemma to_uint_not_Nil n : N.to_uint n <> Decimal.Nil.
Proof.
  destruct n as [|p]; simpl; [discriminate|].
  intros E. pose proof (DecimalPos.Unsigned.of_to p) as H.
  rewrite E in H. discriminate.
Qed.

(** [int(d)] never fails on the characters of [str(n)]. *)
Lemma sum_int_chars_str n :
  Py.sum_int_chars (Py.str_of_N n) = Ok (digit_sum (N.to_uint n)).
Proof.
  unfold Py.str_of_N, NilZero.string_of_uint.
  pose proof (to_uint_not_Nil n) as Hn.
  destruct (N.to_uint n) eqn:E; try apply sum_int_chars_uint.
  congruence.
Qed.

Lemma digit_sum_revapp d d' :
  digit_sum (Decimal.revapp d d') = (digit_sum d + digit_sum d')%N.
Proof.
  revert d'; induction d; intros d'; cbn [Decimal.revapp digit_sum];
    try reflexivity; rewrite IHd; cbn [digit_sum]; lia.
Qed.

Lemma digit_sum_le d : (digit_sum d <= Unsigned.of_lu d)%N.
Proof. induction d; cbn [digit_sum Unsigned.of_lu]; lia. Qed.

Lemma digit_sum_lt d :
  (9 < Unsigned.of_lu d)%N -> (digit_sum d < Unsigned.of_lu d)%N.
Proof.
  destruct d as [|d|d|d|d|d|d|d|d|d|d]; cbn [digit_sum Unsigned.of_lu];
    intros H; try pose proof (digit_sum_le d); lia.
Qed.

(** A number above nine is larger than the sum of its digits. *)
Lemma digit_sum_decreases n :
  (9 < n)%N -> (digit_sum (N.to_uint n) < n)%N.
Proof.
  destruct n as [|p]; [lia|]. intros H.
  cbn [N.to_uint]. unfold Pos.to_uint, Decimal.rev.
  rewrite digit_sum_revapp. cbn [digit_sum]. rewrite N.add_0_r.
  assert (E : Unsigned.of_lu (Pos.to_little_uint p) = N.pos p).
  { rewrite <- Unsigned.of_lu_rev. apply (DecimalPos.Unsigned.of_to p). }
  rewrite <- E in H |- *. now apply digit_sum_lt.
Qed.

Lemma reduce_loop_enough fuel :
  forall n, N.to_nat n < fuel ->
  exists r, reduce_loop fuel n = Ok r /\ keeps_reducing r = false /\ (r <= n)%N.
Proof.
  induction fuel as [|fuel IH]; intros n Hn; [lia|].
  cbn [reduce_loop].
  destruct (keeps_reducing n) eqn:Hk.
  - rewrite sum_int_chars_str. cbn [bind].
    assert (Hlt : (digit_sum (N.to_uint n) < n)%N).
    { apply digit_sum_decreases. unfold keeps_reducing in Hk.
      apply andb_prop in Hk. destruct Hk as [Hk _]. now apply N.ltb_lt. }
    destruct (IH (digit_sum (N.to_uint n))) as [r [Hr [Hs Hle]]]; [lia|].
    exists r. repeat split; try assumption. lia.
  - exists n. repeat split; try assumption. lia.
Qed.

(** More fuel than needed does not change the result. *)
Lemma reduce_loop_stable fuel :
  forall n r, reduce_loop fuel n = Ok r ->
  forall fuel', fuel <= fuel' -> reduce_loop fuel' n = Ok r.
Proof.
  induction fuel as [|fuel IH]; intros n r H fuel' Hle.
  - cbn [reduce_loop] in H. destruct fuel'; cbn [reduce_loop];
      destruct (keeps_reducing n); try discriminate; exact H.
  - destruct fuel' as [|fuel']; [lia|].
    cbn [reduce_loop] in H |- *.
    destruct (keeps_reducing n); [|exact H].
    rewrite sum_int_chars_str in H |- *. cbn [bind] in H |- *.
    apply (IH _ _ H). lia.
Qed.

Lemma reduce_loop_total total :
  exists r, reduce_loop (loop_fuel total) total = Ok r
            /\ keeps_reducing r = false.
Proof.
  destruct (reduce_loop_enough (loop_fuel total) total) as [r [Hr [Hk _]]].
  - unfold loop_fuel. lia.
  - now exists r.
Qed.

Lemma in_master_item n :
  in_master n = true -> exists label, master_item n = Ok label.
Proof.
  unfold in_master, master_item.
  destruct (master_get MASTER_NUMBERS n) as [v|]; [|discriminate].
  intros _. now exists v.
Qed.

Lemma calculate_resonance_returns word : returns (calculate_resonance word).
Proof.
  unfold calculate_resonance.
  destruct (reduce_loop_total (raw_total word)) as [r [Hr _]].
  rewrite Hr. cbn [bind].
  destruct (N.eqb (raw_total word) r).
  - destruct (in_master (raw_total word)) eqn:Hm; [|apply returns_Ok].
    destruct (in_master_item _ Hm) as [label Hl]. rewrite Hl. apply returns_Ok.
  - destruct (in_master r) eqn:Hm; [|apply returns_Ok].
    destruct (in_master_item _ Hm) as [label Hl]. rewrite Hl. apply returns_Ok.
Qed.

(** ** Concrete scenarios *)

(** C1, as the code behaves: the word "experiment" is a positional shadow
    through EX, but the residual PERIMENT loses the full-word suffix MENT,
    which is tried before the operators, so base and suffix are PERI and
    MENT and the parsed string is not "EX~PERIM-ENT". *)
Lemma experiment_not_perim_ent :
  analysis_is (parse_word default_config "experiment")
    (fun r => parsed r = "EX~PERI-MENT" /\ parsed r <> "EX~PERIM-ENT")
  /\ extract_components "experiment"
     <> mkParts (Some "EX") "PERIM" (Some "ENT").
Proof.
  split.
  - eexists. split; [vm_compute; reflexivity|].
    cbn [parsed]. split; [reflexivity | discriminate].
  - vm_compute. discriminate.
Qed.

(** C1 (amended): for "experiment" in structural mode, standard strictness
    and semantic flagging on, the detector fires through the positional
    prefix EX, the residual is PERIMENT, the extractor finds the suffix MENT
    in the full-word table and leaves the base PERI, and the parsed string
    is "EX~PERI-MENT". *)
Theorem experiment_parsed :
  detect_vcc "experiment" = Ok (true, Some "EX", Some "tilde")
  /\ Py.get VCC_PREFIXES "EX"
     = Some [("meaning", "out/from"); ("type", "positional");
             ("etymology", "Latin ex-")]
  /\ extract_components "experiment" = mkParts (Some "EX") "PERI" (Some "MENT")
  /\ Py.mem FULL_WORD_SUFFIXES "MENT" = true
  /\ analysis_is (parse_word default_config "experiment")
       (fun r => parsed r = "EX~PERI-MENT"
                 /\ alternatives r = ["EX~PERIMENT"]
                 /\ is_shadow r = true
                 /\ polarity r = "Sovereign with tilde (positional union)").
Proof.
  repeat split; try (vm_compute; reflexivity).
  eexists. split; [vm_compute; reflexivity|].
  cbn. repeat split.
Qed.

(** ** Strictness *)

(** C9: the strictness setting does not reach [parse_word]: two
    configurations that differ only there give the same analysis record. *)
Theorem strictness_is_unused :
  forall (lvl : ParsingLevel.t) (s1 s2 : StrictnessLevel.t)
         (semantic alternatives : bool) (word : string),
    parse_word (mkConfig lvl s1 semantic alternatives) word
    = parse_word (mkConfig lvl s2 semantic alternatives) word.
Proof.
  intros lvl s1 s2 semantic alts word. reflexivity.
Qed.

(** ** Master numbers *)

Lemma master_label n :
  In n master_numbers -> exists label, master_get MASTER_NUMBERS n = Some label.
Proof.
  unfold master_numbers. cbn [List.map MASTER_NUMBERS fst In].
  intros H.
  repeat (destruct H as [H|H]; [subst n; eexists; vm_compute; reflexivity|]).
  destruct H.
Qed.

(** C6: when the raw sum of a word's letters is a master number, the
    resonance string is that number followed by its label in parentheses,
    and it holds no arrow: the reduction loop stops at once. *)
Theorem master_number_preserved :
  forall word,
    In (raw_total word) master_numbers ->
    exists label,
      master_get MASTER_NUMBERS (raw_total word) = Some label
      /\ (forall fuel, reduce_loop fuel (raw_total word) = Ok (raw_total word))
      /\ calculate_resonance word
         = Ok (Py.str_of_N (raw_total word) ++ " (" ++ label ++ ")")
      /\ Py.contains (Py.str_of_N (raw_total word) ++ " (" ++ label ++ ")") arrow
         = false.
Proof.
  intros word H. unfold calculate_resonance.
  generalize dependent (raw_total word). intros total H.
  unfold master_numbers in H. cbn [List.map MASTER_NUMBERS fst In] in H.
  repeat (destruct H as [H|H];
          [subst total; eexists;
           split; [vm_compute; reflexivity|];
           split; [intros [|fuel]; reflexivity|];
           split; vm_compute; reflexivity|]).
  destruct H.
Qed.

(** The word "the" has raw sum 33. *)
Lemma master_number_preserved_witness :
  In (raw_total "the") master_numbers
  /\ exists label,
       master_get MASTER_NUMBERS (raw_total "the") = Some label
       /\ (forall fuel, reduce_loop fuel (raw_total "the") = Ok (raw_total "the"))
       /\ calculate_resonance "the"
          = Ok (Py.str_of_N (raw_total "the") ++ " (" ++ label ++ ")")
       /\ Py.contains (Py.str_of_N (raw_total "the") ++ " (" ++ label ++ ")") arrow
          = false.
Proof.
  assert (H : In (raw_total "the") master_numbers).
  { vm_compute. right; right; left; reflexivity. }
  split; [exact H | exact (master_number_preserved "the" H)].
Defined.

(** ** Component extraction *)

(** Either the prefix loop leaves its variables alone, or it took a prefix
    of the list and left something after it. *)
Lemma prefix_loop_spec order word_upper :
  forall p0 b0 p b,
    prefix_loop order word_upper p0 b0 = (p, b) ->
    (p = p0 /\ b = b0)
    \/ (exists q, p = Some q /\ In q order /\ word_upper = q ++ b /\ b <> ""
                  /\ Py.startswith word_upper q = true
                  /\ Py.len q < Py.len word_upper).
Proof.
  induction order as [|q order IH]; intros p0 b0 p b H; cbn [prefix_loop] in H.
  - left. inversion H. split; reflexivity.
  - destruct (Py.startswith word_upper q
              && (Py.len q <? Py.len word_upper)%nat) eqn:E.
    + right. inversion H. subst p b. clear H.
      apply andb_prop in E. destruct E as [Hs Hl]. apply Nat.ltb_lt in Hl.
      exists q. repeat split; try assumption.
      * now left.
      * now apply startswith_split.
      * intros Hd. pose proof (len_drop (Py.len q) word_upper) as L.
        rewrite Hd in L. simpl in L. lia.
    + destruct (IH _ _ _ _ H) as [Hk | [r [Hp [Hin Hrest]]]].
      * now left.
      * right. exists r. repeat split; try tauto. now right.
Qed.

(** The same for a suffix loop. *)
Lemma suffix_loop_spec candidates :
  forall s0 b0 s b,
    suffix_loop candidates s0 b0 = (s, b) ->
    (s = s0 /\ b = b0)
    \/ (exists x, s = Some x /\ In x candidates /\ b0 = b ++ x /\ b <> "").
Proof.
  induction candidates as [|x candidates IH]; intros s0 b0 s b H;
    cbn [suffix_loop] in H.
  - left. inversion H. split; reflexivity.
  - destruct (Py.endswith b0 x && (Py.len x <? Py.len b0)%nat) eqn:E.
    + right. inversion H. subst s b. clear H.
      apply andb_prop in E. destruct E as [He Hl]. apply Nat.ltb_lt in Hl.
      exists x. repeat split.
      * now left.
      * now apply endswith_split.
      * intros Hd. unfold Py.drop_last in Hd.
        pose proof (len_take (Py.len b0 - Py.len x) b0) as L.
        rewrite Hd in L. simpl in L. lia.
    + destruct (IH _ _ _ _ H) as [Hk | [y [Hs [Hin Hrest]]]].
      * now left.
      * right. exists y. repeat split; try tauto. now right.
Qed.

Lemma falsy_or_empty o : Py.truthy_opt o = false -> or_empty o = "".
Proof.
  destruct o as [s|]; simpl; [|reflexivity].
  unfold Py.truthy. destruct s; simpl; [reflexivity | discriminate].
Qed.

(** What the three suffix passes of [extract_components] do to a base. *)
Lemma suffix_passes_spec b0 s1 b1 s2 b2 s3 b3 :
  suffix_loop (Py.sorted_by_len_desc (Py.keys FULL_WORD_SUFFIXES)) None b0
  = (s1, b1) ->
  (if negb (Py.truthy_opt s1)
   then suffix_loop (Py.sorted_by_len_desc (Py.keys STANCE_SUFFIXES)) s1 b1
   else (s1, b1)) = (s2, b2) ->
  (if negb (Py.truthy_opt s2)
   then suffix_loop (Py.sorted_by_len_desc TRUE_OPERATORS) s2 b2
   else (s2, b2)) = (s3, b3) ->
  b0 = b3 ++ or_empty s3 /\ (b0 <> "" -> b3 <> "").
Proof.
  intros H1 H2 H3.
  assert (I1 : b0 = b1 ++ or_empty s1 /\ (b0 <> "" -> b1 <> "")).
  { destruct (suffix_loop_spec _ _ _ _ _ H1) as [[-> ->] | [x [-> [_ [-> Hb]]]]].
    - simpl. rewrite app_empty_r. tauto.
    - simpl. tauto. }
  assert (I2 : b0 = b2 ++ or_empty s2 /\ (b0 <> "" -> b2 <> "")).
  { destruct (Py.truthy_opt s1) eqn:T1; cbn [negb] in H2.
    - inversion H2. subst. exact I1.
    - apply falsy_or_empty in T1. rewrite T1, app_empty_r in I1.
      destruct I1 as [E1 N1]. subst b1.
      destruct (suffix_loop_spec _ _ _ _ _ H2) as [[-> ->] | [x [-> [_ [-> Hb]]]]].
      + rewrite T1, app_empty_r. tauto.
      + simpl. tauto. }
  destruct (Py.truthy_opt s2) eqn:T2; cbn [negb] in H3.
  - inversion H3. subst. exact I2.
  - apply falsy_or_empty in T2. rewrite T2, app_empty_r in I2.
    destruct I2 as [E2 N2]. subst b2.
    destruct (suffix_loop_spec _ _ _ _ _ H3) as [[-> ->] | [x [-> [_ [-> Hb]]]]].
    + rewrite T2, app_empty_r. tauto.
    + simpl. tauto.
Qed.

Lemma upper_empty word : Py.upper word = "" -> word = "".
Proof. destruct word; simpl; [reflexivity | discriminate]. Qed.

(** The three parts of a word, put back together. *)
Lemma extract_components_parts word :
  or_empty (prefix (extract_components word))
  ++ base (extract_components word)
  ++ or_empty (suffix (extract_components word)) = Py.upper word
  /\ (word <> "" -> base (extract_components word) <> "").
Proof.
  unfold extract_components.
  destruct (prefix_loop prefix_order (Py.upper word) None (Py.upper word))
    as [p b0] eqn:Hp.
  destruct (suffix_loop (Py.sorted_by_len_desc (Py.keys FULL_WORD_SUFFIXES)) None b0)
    as [s1 b1] eqn:H1.
  destruct (if negb (Py.truthy_opt s1)
            then suffix_loop (Py.sorted_by_len_desc (Py.keys STANCE_SUFFIXES)) s1 b1
            else (s1, b1)) as [s2 b2] eqn:H2.
  destruct (if negb (Py.truthy_opt s2)
            then suffix_loop (Py.sorted_by_len_desc TRUE_OPERATORS) s2 b2
            else (s2, b2)) as [s3 b3] eqn:H3.
  cbn [prefix base suffix].
  destruct (suffix_passes_spec _ _ _ _ _ _ _ H1 H2 H3) as [Eb Nb].
  assert (I0 : Py.upper word = or_empty p ++ b0 /\ (word <> "" -> b0 <> "")).
  { destruct (prefix_loop_spec _ _ _ _ _ _ Hp) as [[-> ->] | [q [-> [_ [E [Hb _]]]]]].
    - simpl. split; [reflexivity|]. intros Hw Hu. apply Hw. now apply upper_empty.
    - simpl. tauto. }
  destruct I0 as [E0 N0]. split.
  - rewrite E0, Eb. reflexivity.
  - intros Hw. apply Nb. now apply N0.
Qed.

(** C10: the prefix (or the empty string), the base and the suffix (or the
    empty string) returned by [extract_components], concatenated, give the
    uppercased word; and the base of a word that is not empty is not
    empty. *)
Theorem extract_components_concat :
  forall word,
    let c := extract_components word in
    or_empty (prefix c) ++ base c ++ or_empty (suffix c) = Py.upper word
    /\ (word <> "" -> base c <> "").
Proof.
  intros word. cbv zeta. apply extract_components_parts.
Qed.

(** ** The V+CC detector *)

Lemma detect_vcc_loop_spec prefixes word_upper :
  (forall p, In p prefixes -> In p (Py.keys VCC_PREFIXES)) ->
  exists r, detect_vcc_loop prefixes word_upper = Ok r /\ vcc_result word_upper r.
Proof.
  induction prefixes as [|p prefixes IH]; intros Hsub; cbn [detect_vcc_loop].
  - eexists. split; [reflexivity | now left].
  - assert (Hrest : forall q, In q prefixes -> In q (Py.keys VCC_PREFIXES)).
    { intros q Hq. apply Hsub. now right. }
    destruct (Py.startswith word_upper p
              && (Py.len p <? Py.len word_upper)%nat) eqn:E; [|now apply IH].
    destruct (starts_with_consonant (Py.drop (Py.len p) word_upper));
      [|now apply IH].
    apply andb_prop in E. destruct E as [Hs Hl]. apply Nat.ltb_lt in Hl.
    assert (Hp : In p (Py.keys VCC_PREFIXES)) by (apply Hsub; now left).
    destruct (In_keys_get _ _ Hp) as [entry Hentry].
    unfold Py.item at 1. rewrite Hentry. cbn [bind].
    destruct (all_have_get "type" VCC_PREFIXES p entry) as [ty Hty];
      [vm_compute; reflexivity | exact Hentry |].
    rewrite Hty. cbn [bind].
    destruct (String.eqb ty "positional"); eexists; (split; [reflexivity|]);
      right; do 2 eexists; repeat split; eauto.
Qed.

Lemma detect_vcc_spec word :
  exists r, detect_vcc word = Ok r /\ vcc_result (Py.upper word) r.
Proof.
  unfold detect_vcc. apply detect_vcc_loop_spec. auto.
Qed.

(** ** [parse_word] returns *)

Lemma check_semantic_returns cfg word_clean st :
  returns (check_semantic cfg word_clean st).
Proof.
  unfold check_semantic.
  destruct (flag_semantic cfg && Py.mem SEMANTIC_SHADOWS (Py.lower word_clean))
    eqn:E; [|apply returns_Ok].
  apply andb_prop in E. destruct E as [_ E].
  destruct (mem_item _ _ E) as [v [_ Hv]]. rewrite Hv. apply returns_Ok.
Qed.

Lemma check_vcc_returns word_upper r st :
  vcc_result word_upper r ->
  returns (check_vcc word_upper (fst (fst r)) (snd (fst r)) (snd r) st).
Proof.
  intros [-> | [p [sep [-> [Hin _]]]]]; cbn [fst snd check_vcc].
  - apply returns_Ok.
  - cbn [len_opt bind item_opt].
    destruct (In_keys_get _ _ Hin) as [entry Hentry].
    unfold Py.item. rewrite Hentry. cbn [bind].
    destruct (opt_eqb (Some sep) "tilde"); apply returns_Ok.
Qed.

Lemma with_meaning_returns d k entry :
  all_have "meaning" d = true -> Py.get d k = Some entry ->
  returns (with_meaning k entry).
Proof.
  intros Hall Hget. unfold with_meaning.
  destruct (all_have_get _ _ _ _ Hall Hget) as [v Hv].
  rewrite Hv. apply returns_Ok.
Qed.

(** A part looked up in a table of the glossary. *)
Lemma glossary_entry_returns d k (other : outcome (list string)) :
  all_have "meaning" d = true -> returns other ->
  returns (if Py.mem d k
           then entry <- Py.item d k ;;
                part <- with_meaning k entry ;;
                Ok [part]
           else other).
Proof.
  intros Hall Hother. destruct (Py.mem d k) eqn:E; [|exact Hother].
  destruct (mem_item _ _ E) as [entry [Hget Hitem]].
  rewrite Hitem. cbn [bind].
  destruct (with_meaning_returns _ _ _ Hall Hget) as [part Hpart].
  rewrite Hpart. apply returns_Ok.
Qed.

Lemma educational_parts_spec components :
  exists l, educational_parts components = Ok l
            /\ (base components <> "" -> l <> []).
Proof.
  unfold educational_parts.
  assert (H1 : returns
    match prefix components with
    | Some prefix =>
        if Py.truthy prefix
        then
          if Py.mem VCC_PREFIXES prefix
          then entry <- Py.item VCC_PREFIXES prefix ;;
               part <- with_meaning prefix entry ;;
               Ok [part]
          else
            if Py.mem OTHER_PREFIXES prefix
            then entry <- Py.item OTHER_PREFIXES prefix ;;
                 part <- with_meaning prefix entry ;;
                 Ok [part]
            else Ok [prefix]
        else Ok []
    | None => Ok []
    end).
  { destruct (prefix components) as [p|]; [|apply returns_Ok].
    destruct (Py.truthy p); [|apply returns_Ok].
    apply glossary_entry_returns; [vm_compute; reflexivity|].
    apply glossary_entry_returns; [vm_compute; reflexivity | apply returns_Ok]. }
  destruct H1 as [l1 ->]. cbn [bind].
  assert (H2 : exists l2,
    (if Py.truthy (base components)
     then
       if Py.mem COMMON_ROOTS (base components)
       then entry <- Py.item COMMON_ROOTS (base components) ;;
            part <- with_meaning (base components) entry ;;
            Ok [part]
       else Ok [base components]
     else Ok []) = Ok l2 /\ (base components <> "" -> l2 <> [])).
  { destruct (Py.truthy (base components)) eqn:T.
    - destruct (Py.mem COMMON_ROOTS (base components)) eqn:E.
      + destruct (mem_item _ _ E) as [entry [Hget Hitem]].
        rewrite Hitem. cbn [bind].
        destruct (with_meaning_returns COMMON_ROOTS _ _ eq_refl Hget) as [part ->].
        eexists. split; [reflexivity | discriminate].
      + eexists. split; [reflexivity | discriminate].
    - eexists. split; [reflexivity|]. intros Hb.
      apply truthy_true in Hb. congruence. }
  destruct H2 as [l2 [-> Hl2]]. cbn [bind].
  assert (H3 : returns
    match suffix components with
    | Some suffix =>
        if Py.truthy suffix
        then
          if Py.mem FULL_WORD_SUFFIXES suffix
          then entry <- Py.item FULL_WORD_SUFFIXES suffix ;;
               part <- with_meaning suffix entry ;;
               Ok [part]
          else
            if Py.mem STANCE_SUFFIXES suffix
            then entry <- Py.item STANCE_SUFFIXES suffix ;;
                 part <- with_meaning suffix entry ;;
                 Ok [part]
            else Ok [suffix]
        else Ok []
    | None => Ok []
    end).
  { destruct (suffix components) as [s|]; [|apply returns_Ok].
    destruct (Py.truthy s); [|apply returns_Ok].
    apply glossary_entry_returns; [vm_compute; reflexivity|].
    apply glossary_entry_returns; [vm_compute; reflexivity | apply returns_Ok]. }
  destruct H3 as [l3 ->]. cbn [bind].
  eexists. split; [reflexivity|].
  intros Hb. specialize (Hl2 Hb). destruct l1, l2; simpl; congruence.
Qed.

Lemma render_returns cfg word_clean shadow alts r components :
  vcc_result (Py.upper word_clean) r ->
  components = extract_components word_clean ->
  returns (render cfg word_clean shadow alts (fst (fst r)) (snd r) components).
Proof.
  intros Hr ->. unfold render. destruct (level cfg).
  - destruct alts; [|destruct shadow]; apply returns_Ok.
  - destruct (fst (fst r) && opt_eqb (snd r) "tilde");
      [destruct (Py.truthy_opt _)|]; apply returns_Ok.
  - apply returns_Ok.
  - destruct (educational_parts_spec (extract_components word_clean))
      as [l [-> Hl]]. cbn [bind].
    destruct (fst (fst r) && opt_eqb (snd r) "tilde") eqn:E; [|apply returns_Ok].
    destruct Hr as [-> | [p [sep [-> [_ [_ [Hlen _]]]]]]]; [discriminate|].
    assert (Hne : word_clean <> "").
    { intros ->. simpl in Hlen. lia. }
    destruct l as [|x l].
    + exfalso. apply Hl; [|reflexivity].
      now apply extract_components_parts.
    + apply returns_Ok.
Qed.

Lemma greek_analysis_returns original word_clean :
  returns (greek_analysis original word_clean).
Proof.
  unfold greek_analysis.
  destruct (calculate_resonance_returns word_clean) as [r ->]. apply returns_Ok.
Qed.

Lemma parse_word_returns cfg word : returns (parse_word cfg word).
Proof.
  unfold parse_word.
  set (original := Py.strip word). set (word_clean := clean_word original).
  destruct (is_greek_compound word_clean); [apply greek_analysis_returns|].
  destruct (check_semantic_returns cfg word_clean initial_shadow) as [st ->].
  cbn [bind].
  destruct (detect_vcc_spec word_clean) as [r [-> Hr]]. cbn [bind].
  destruct r as [[detected vcc_prefix] separator].
  destruct (check_vcc_returns _ _ st Hr) as [[st' pol] Hc].
  cbn [fst snd] in Hc. rewrite Hc. cbn [bind].
  destruct (render_returns cfg word_clean (st_is_shadow st') (st_alternatives st')
              _ _ Hr eq_refl) as [parsed Hp].
  cbn [fst snd] in Hp. rewrite Hp. cbn [bind].
  destruct (calculate_resonance_returns word_clean) as [res ->]. cbn [bind].
  apply returns_Ok.
Qed.

(** ** The document analyser returns *)

Lemma analyze_loop_spec cfg words :
  forall count structural semantic,
  exists count' structural' semantic',
    analyze_loop cfg words count structural semantic
    = Ok (count', structural', semantic')
    /\ (count <= count' <= count + N.of_nat (length words))%N.
Proof.
  induction words as [|word words IH]; intros count structural semantic;
    cbn [analyze_loop].
  - do 3 eexists. split; [reflexivity|]. simpl. lia.
  - destruct (parse_word_returns cfg word) as [analysis ->]. cbn [bind].
    destruct (is_shadow analysis).
    + edestruct IH as [c [s1 [s2 [-> Hc]]]].
      do 3 eexists. split; [reflexivity|]. cbn [length]. lia.
    + edestruct IH as [c [s1 [s2 [-> Hc]]]].
      do 3 eexists. split; [reflexivity|]. cbn [length]. lia.
Qed.

Lemma score_of_returns total count : returns (score_of total count).
Proof.
  unfold score_of, truediv. destruct (0 <? total)%N eqn:E; [|apply returns_Ok].
  apply N.ltb_lt in E. destruct (N.eqb_spec total 0) as [Hz|Hz]; [lia|].
  cbn [bind]. apply returns_Ok.
Qed.

Lemma analyze_document_returns cfg text : returns (analyze_document cfg text).
Proof.
  unfold analyze_document.
  destruct (analyze_loop_spec cfg (Re.findall_words text) 0%N [] [])
    as [c [s1 [s2 [-> _]]]]. cbn [bind].
  destruct (score_of_returns (N.of_nat (length (Re.findall_words text))) c)
    as [sc ->]. apply returns_Ok.
Qed.

Lemma bullet_lines_spec cfg words :
  exists lines, bullet_lines cfg words = Ok lines
                /\ length lines = length words.
Proof.
  induction words as [|word words [lines [IH Hlen]]]; cbn [bullet_lines].
  - exists []. split; reflexivity.
  - destruct (parse_word_returns cfg word) as [analysis ->]. cbn [bind].
    rewrite IH. cbn [bind]. eexists. split; [reflexivity|].
    simpl. now rewrite Hlen.
Qed.

Lemma structural_section_returns rt cfg shadows :
  returns (structural_section rt cfg shadows).
Proof.
  unfold structural_section. destruct shadows as [|w shadows]; [apply returns_Ok|].
  destruct (bullet_lines_spec cfg (set_iter rt (firstn 10 (w :: shadows))))
    as [lines [-> _]].
  apply returns_Ok.
Qed.

Lemma semantic_section_returns rt cfg shadows :
  returns (semantic_section rt cfg shadows).
Proof.
  unfold semantic_section. destruct shadows as [|w shadows]; [apply returns_Ok|].
  destruct (bullet_lines_spec cfg (set_iter rt (w :: shadows))) as [lines [-> _]].
  apply returns_Ok.
Qed.

Lemma generate_report_returns rt cfg text : returns (generate_report rt cfg text).
Proof.
  unfold generate_report, report_lines.
  destruct (analyze_document_returns cfg text) as [analysis ->]. cbn [bind].
  destruct (structural_section_returns rt cfg (structural_shadows analysis))
    as [l1 ->]. cbn [bind].
  destruct (semantic_section_returns rt cfg (semantic_shadows analysis))
    as [l2 ->]. cbn [bind].
  apply returns_Ok.
Qed.

Lemma parse_tokens_returns cfg tokens : returns (parse_tokens cfg tokens).
Proof.
  induction tokens as [|word tokens [l IH]]; cbn [parse_tokens].
  - apply returns_Ok.
  - rewrite IH. destruct (Re.starts_in_class word); cbn [bind].
    + destruct (parse_word_returns cfg word) as [analysis ->]. apply returns_Ok.
    + apply returns_Ok.
Qed.

Lemma parse_document_returns cfg text : returns (parse_document cfg text).
Proof.
  unfold parse_document.
  destruct (parse_tokens_returns cfg (Re.findall_tokens text)) as [l ->].
  apply returns_Ok.
Qed.

(** C2: for every string, every core operation ends normally with a value:
    the resonance calculator (whose loop never runs out of fuel), the
    detector, [parse_word] at every configuration, the document parser,
    the document analyser and the reporter.  The extractor and the Greek matcher are total
    functions of the embedding. *)
Theorem core_operations_return :
  forall (rt : runtime) (cfg : config) (input : string),
    returns (calculate_resonance input)
    /\ returns (detect_vcc input)
    /\ returns (parse_word cfg input)
    /\ returns (parse_document cfg input)
    /\ returns (analyze_document cfg input)
    /\ returns (generate_report rt cfg input).
Proof.
  intros rt cfg input. repeat split.
  - apply calculate_resonance_returns.
  - destruct (detect_vcc_spec input) as [r [Hr _]]. now exists r.
  - apply parse_word_returns.
  - apply parse_document_returns.
  - apply analyze_document_returns.
  - apply generate_report_returns.
Qed.

(** ** The sovereignty score *)

Lemma score_of_formula total count :
  score_of total count
  = Ok (if (0 <? total)%N then PyFloat (percent_sovereign total count)
        else PyInt 0).
Proof.
  unfold score_of, truediv, percent_sovereign.
  destruct (0 <? total)%N eqn:E; [|reflexivity].
  apply N.ltb_lt in E. destruct (N.eqb_spec total 0) as [Hz|Hz]; [lia|].
  reflexivity.
Qed.

(** C7: [analyze_document] always returns; its word count is the number of
    tokens, its shadow count never exceeds it, and its score is
    (total - shadow) / total * 100 when there is a word and the integer 0
    when there is none, so no division by zero happens.  A text of ten
    words with three shadows scores 70.0; the empty text has no word and
    scores 0. *)
Theorem sovereignty_score_formula :
  forall (cfg : config) (text : string),
    (exists stats,
       analyze_document cfg text = Ok stats
       /\ total_words stats = N.of_nat (length (Re.findall_words text))
       /\ (shadow_count stats <= total_words stats)%N
       /\ sovereignty_score stats
          = if (0 <? total_words stats)%N
            then PyFloat (percent_sovereign (total_words stats) (shadow_count stats))
            else PyInt 0)
    /\ analyze_document cfg ten_words
       = Ok (mkStats 10 3 ["inform"; "object"; "unlock"] [] (PyFloat 70%float))
    /\ analyze_document cfg ""
       = Ok (mkStats 0 0 [] [] (PyInt 0)).
Proof.
  intros cfg text. split; [|split].
  - unfold analyze_document.
    destruct (analyze_loop_spec cfg (Re.findall_words text) 0%N [] [])
      as [c [s1 [s2 [-> Hc]]]]. cbn [bind].
    rewrite score_of_formula. cbn [bind].
    eexists. split; [reflexivity|].
    cbn [total_words shadow_count sovereignty_score].
    repeat split. lia.
  - destruct cfg as [[] s [] a]; vm_compute; reflexivity.
  - destruct cfg as [[] s [] a]; vm_compute; reflexivity.
Qed.

(** ** The Greek compound matcher *)

Lemma startswith_cons c w a p :
  Py.startswith (String c w) (String a p) = Ascii.eqb a c && Py.startswith w p.
Proof. reflexivity. Qed.


(** Case analysis on every prefix and substring test left in the goal; a
    prefix test that holds makes the substring test hold. *)
Ltac split_atoms :=
  repeat match goal with
         | |- context [Py.startswith ?w ?s] =>
             let H := fresh "Hs" in
             pose proof (startswith_contains w s) as H;
             destruct (Py.startswith w s)
         end;
  repeat match goal with
         | |- context [Py.contains ?w ?s] => destruct (Py.contains w s)
         end.

(** A Greek suffix that overlaps a Greek root can only be OLOGY on a final
    O, and then LOGY lies in the remainder. *)
Lemma greek_suffix_overlap root rest :
  In root (Py.keys GREEK_ROOTS) ->
  existsb (fun s => Py.contains (root ++ rest) s) (Py.keys GREEK_SUFFIXES)
  = existsb (fun s => Py.contains rest s) (Py.keys GREEK_SUFFIXES).
Proof.
  cbn [Py.keys List.map GREEK_ROOTS GREEK_SUFFIXES fst In].
  intros H.
  repeat (destruct H as [H|H]; [subst root|]); [..|destruct H];
    cbn [existsb append Py.contains];
    repeat rewrite startswith_cons;
    cbn [Ascii.eqb Bool.eqb andb orb];
    split_atoms; cbn [orb]; try reflexivity;
    match goal with Hs : true = true -> _ |- _ =>
      specialize (Hs eq_refl); discriminate
    end.
Qed.

Lemma existsb_pointwise {A : Type} (f g : A -> bool) l :
  (forall x, In x l -> f x = g x) -> existsb f l = existsb g l.
Proof.
  induction l as [|x l IH]; intros H; simpl; [reflexivity|].
  rewrite (H x) by now left. rewrite IH; [reflexivity|].
  intros y Hy. apply H. now right.
Qed.

Lemma is_greek_compound_by_remainder word :
  is_greek_compound word = greek_by_remainder (Py.upper word).
Proof.
  unfold is_greek_compound, greek_by_remainder.
  apply existsb_pointwise. intros root Hroot.
  destruct (Py.startswith (Py.upper word) root) eqn:E; [|reflexivity].
  cbn [andb]. apply startswith_split in E.
  remember (Py.drop (Py.len root) (Py.upper word)) as rest eqn:Hrest.
  clear Hrest. rewrite E. now apply greek_suffix_overlap.
Qed.

(** ** The two paths of [parse_word] *)

Lemma parse_word_greek cfg word :
  is_greek_compound (cleaned word) = true ->
  exists resonance,
    calculate_resonance (cleaned word) = Ok resonance
    /\ parse_word cfg word = Ok (greek_record word resonance).
Proof.
  intros H. unfold parse_word. fold (cleaned word). rewrite H.
  unfold greek_analysis.
  destruct (calculate_resonance_returns (cleaned word)) as [res Hres].
  exists res. split; [exact Hres|]. rewrite Hres. reflexivity.
Qed.

(** Past the Greek test, the record is assembled from the stages. *)
Lemma parse_word_stages cfg word :
  is_greek_compound (cleaned word) = false ->
  exists st0 r st pol parsed res,
    check_semantic cfg (cleaned word) initial_shadow = Ok st0
    /\ detect_vcc (cleaned word) = Ok r
    /\ vcc_result (Py.upper (cleaned word)) r
    /\ check_vcc (Py.upper (cleaned word)) (fst (fst r)) (snd (fst r)) (snd r) st0
       = Ok (st, pol)
    /\ render cfg (cleaned word) (st_is_shadow st) (st_alternatives st)
         (fst (fst r)) (snd r) (extract_components (cleaned word)) = Ok parsed
    /\ calculate_resonance (cleaned word) = Ok res
    /\ parse_word cfg word
       = Ok (mkGlyphAnalysis (Py.strip word) parsed pol res
               (st_is_shadow st) (st_shadow_types st)
               (component_details (extract_components (cleaned word)))
               (st_warnings st) (st_alternatives st) (st_tier st)
               (field_loop TECHNICAL_FIELDS (Py.lower (cleaned word))) None).
Proof.
  intros H. unfold parse_word. fold (cleaned word). rewrite H.
  destruct (check_semantic_returns cfg (cleaned word) initial_shadow) as [st0 H0].
  destruct (detect_vcc_spec (cleaned word)) as [r [H1 Hr]].
  destruct (check_vcc_returns _ _ st0 Hr) as [[st pol] H2].
  destruct (render_returns cfg (cleaned word) (st_is_shadow st)
              (st_alternatives st) _ _ Hr eq_refl) as [parsed H3].
  destruct (calculate_resonance_returns (cleaned word)) as [res H4].
  exists st0, r, st, pol, parsed, res.
  repeat (split; [assumption|]).
  rewrite H0, H1. cbn [bind]. destruct r as [[det vp] sep].
  cbn [fst snd] in *. rewrite H2. cbn [bind]. rewrite H3. cbn [bind].
  rewrite H4. reflexivity.
Qed.

Lemma check_vcc_polarity word_upper det vp sep st0 st pol :
  check_vcc word_upper det vp sep st0 = Ok (st, pol) ->
  pol <> "Sovereign (Greek compound)".
Proof.
  unfold check_vcc. destruct det.
  - destruct (len_opt vp); cbn [bind]; try discriminate.
    destruct (item_opt VCC_PREFIXES vp); cbn [bind]; try discriminate.
    destruct (opt_eqb sep "tilde"); intros H; inversion H; discriminate.
  - intros H; inversion H; discriminate.
Qed.

(** C5: [parse_word] takes the Greek early return exactly when the
    uppercased cleaned word starts with a Greek root and a Greek suffix
    occurs in the remainder after that root.  The record returned then is
    not a shadow, has the polarity "Sovereign (Greek compound)", and has no
    shadow type, component, warning or alternative; on "biology" its parsed
    string is "BIO~LOGY". *)
Theorem greek_early_exit :
  forall (cfg : config) (word : string),
    is_greek_compound (cleaned word)
    = greek_by_remainder (Py.upper (cleaned word))
    /\ analysis_is (parse_word cfg word)
         (fun r =>
            (polarity r = "Sovereign (Greek compound)"
             <-> greek_by_remainder (Py.upper (cleaned word)) = true)
            /\ (greek_by_remainder (Py.upper (cleaned word)) = true ->
                r = greek_record word (resonance r)
                /\ calculate_resonance (cleaned word) = Ok (resonance r)))
    /\ analysis_is (parse_word cfg "biology")
         (fun r => r = greek_record "biology" "85→4"
                   /\ parsed r = "BIO~LOGY").
Proof.
  intros cfg word. split; [apply is_greek_compound_by_remainder|]. split.
  - rewrite <- is_greek_compound_by_remainder.
    destruct (is_greek_compound (cleaned word)) eqn:G.
    + destruct (parse_word_greek cfg word G) as [res [Hres Hp]].
      eexists. split; [exact Hp|]. cbn [greek_record polarity resonance].
      split; [tauto|]. intros _. split; [reflexivity | exact Hres].
    + destruct (parse_word_stages cfg word G)
        as [st0 [r [st [pol [p [res [_ [_ [_ [Hc [_ [_ Hp]]]]]]]]]]]].
      eexists. split; [exact Hp|]. cbn [polarity]. split.
      * split; [|discriminate]. intros E. exfalso.
        now apply (check_vcc_polarity _ _ _ _ _ _ _ Hc).
      * discriminate.
  - destruct (parse_word_greek cfg "biology" eq_refl) as [res [Hres Hp]].
    eexists. split; [exact Hp|].
    assert (res = "85→4") as -> by (vm_compute in Hres; congruence).
    split; reflexivity.
Qed.

(** ** Tildes in the rendered word *)

Lemma tilde_upper_char c :
  Ascii.eqb tilde (Py.upper_char c) = Ascii.eqb tilde c.
Proof.
  destruct c as [[] [] [] [] [] [] [] []]; reflexivity.
Qed.

Lemma count_tilde_upper s : Py.count tilde (Py.upper s) = Py.count tilde s.
Proof.
  induction s as [|c s IH]; [reflexivity|].
  cbn [Py.upper Py.map Py.count]. fold (Py.upper s).
  now rewrite tilde_upper_char, IH.
Qed.

Lemma count_filter_le c f s : Py.count c (Py.filter f s) <= Py.count c s.
Proof.
  induction s as [|a s IH]; cbn [Py.filter Py.count]; [lia|].
  destruct (f a); cbn [Py.count]; lia.
Qed.

Lemma count_lstrip_le c s : Py.count c (Py.lstrip s) <= Py.count c s.
Proof.
  induction s as [|a s IH]; cbn [Py.lstrip Py.count]; [lia|].
  destruct (Py.isspace_char a); cbn [Py.count]; lia.
Qed.

Lemma count_rstrip_le c s : Py.count c (Py.rstrip s) <= Py.count c s.
Proof.
  induction s as [|a s IH]; cbn [Py.rstrip Py.count]; [lia|].
  destruct (Py.rstrip s) as [|b r] eqn:E.
  - destruct (Py.isspace_char a); cbn [Py.count] in *; lia.
  - cbn [Py.count] in *. lia.
Qed.

(** A word without a tilde has none once stripped, cleaned and uppercased. *)
Lemma no_tilde_cleaned word :
  Py.count tilde word = 0 -> Py.count tilde (Py.upper (cleaned word)) = 0.
Proof.
  intros H. rewrite count_tilde_upper. unfold cleaned, clean_word, Py.strip.
  pose proof (count_filter_le tilde
                (fun c => Py.isalnum_char c || Py.char_in c word_chars)
                (Py.rstrip (Py.lstrip word))).
  pose proof (count_rstrip_le tilde (Py.lstrip word)).
  pose proof (count_lstrip_le tilde word). lia.
Qed.

(** Then none of the three parts has one. *)
Lemma no_tilde_parts word :
  Py.count tilde (Py.upper word) = 0 ->
  Py.count tilde (or_empty (prefix (extract_components word))) = 0
  /\ Py.count tilde (base (extract_components word)) = 0
  /\ Py.count tilde (or_empty (suffix (extract_components word))) = 0.
Proof.
  intros H. destruct (extract_components_parts word) as [E _].
  rewrite <- E in H. rewrite !count_app in H. lia.
Qed.

Lemma count_fmt_opt o :
  Py.count tilde (Py.fmt_opt o) = Py.count tilde (or_empty o).
Proof. destruct o; reflexivity. Qed.

Lemma count_join_underscore parts :
  Forall (fun p => Py.count tilde p = 0) parts ->
  Py.count tilde (Py.join "_" parts) = 0.
Proof.
  induction parts as [|p parts IH]; intros H; [reflexivity|].
  inversion H as [|? ? Hp Hrest]; subst.
  destruct parts as [|q parts]; [exact Hp|].
  change (Py.join "_" (p :: q :: parts))
    with (p ++ "_" ++ Py.join "_" (q :: parts)).
  rewrite !count_app, Hp, (IH Hrest). reflexivity.
Qed.

Lemma no_tilde_present_parts word :
  Py.count tilde (Py.upper word) = 0 ->
  Forall (fun p => Py.count tilde p = 0) (present_parts (extract_components word)).
Proof.
  intros H. destruct (no_tilde_parts word H) as [Hp [Hb Hs]].
  unfold present_parts.
  apply Forall_app. split; [|apply Forall_app; split];
    match goal with |- Forall _ (if ?c then _ else _) => destruct c end;
    constructor; rewrite ?count_fmt_opt; try assumption; constructor.
Qed.

(** A word the detector fires on starts with none of the Greek roots. *)
Lemma vcc_not_greek word p sep :
  vcc_result (Py.upper word) (true, Some p, Some sep) ->
  is_greek_compound word = false.
Proof.
  intros [H | [q [sep' [H [Hin [Hs _]]]]]]; [discriminate|].
  inversion H; subst q sep'; clear H.
  unfold is_greek_compound. apply startswith_split in Hs.
  remember (Py.drop (Py.len p) (Py.upper word)) as rest eqn:Hrest.
  clear Hrest. rewrite Hs.
  cbn [Py.keys List.map VCC_PREFIXES fst In] in Hin.
  repeat (destruct Hin as [Hin|Hin]; [subst p|]); [..|destruct Hin];
    cbn [Py.keys List.map GREEK_ROOTS fst existsb append];
    repeat rewrite startswith_cons;
    cbn [Ascii.eqb Bool.eqb andb orb]; reflexivity.
Qed.

Lemma detect_vcc_result word r :
  detect_vcc word = Ok r -> vcc_result (Py.upper word) r.
Proof.
  intros H. destruct (detect_vcc_spec word) as [r' [H' Hr]]. congruence.
Qed.

Lemma check_vcc_fires word_upper p sep st0 st pol :
  check_vcc word_upper true (Some p) (Some sep) st0 = Ok (st, pol) ->
  st_is_shadow st = true
  /\ st_shadow_types st = Py.append (st_shadow_types st0) ShadowType.STRUCTURAL
  /\ st_tier st = Some (tier_or (st_tier st0) 2).
Proof.
  unfold check_vcc. cbn [len_opt bind].
  destruct (item_opt VCC_PREFIXES (Some p)); cbn [bind]; try discriminate.
  destruct (opt_eqb (Some sep) "tilde"); intros H; inversion H;
    repeat split.
Qed.

(** C4, as the code behaves: a tilde in the word survives cleaning, so the
    structural rendering of the positional shadow "int~x" has two tildes
    and the ceremonial rendering of "a~b" has one; and the Greek early
    return writes its tilde at every level, the ceremonial one included. *)
Lemma tilde_counts_differ :
  analysis_is (parse_word (at_level ParsingLevel.STRUCTURAL default_config) "int~x")
    (fun r => polarity r = "Sovereign with tilde (positional union)"
              /\ parsed r = "IN~T~X" /\ Py.count tilde (parsed r) = 2)
  /\ analysis_is (parse_word (at_level ParsingLevel.CEREMONIAL default_config) "a~b")
       (fun r => parsed r = "A_~B" /\ Py.count tilde (parsed r) = 1)
  /\ analysis_is (parse_word (at_level ParsingLevel.CEREMONIAL default_config) "biology")
       (fun r => parsed r = "BIO~LOGY" /\ Py.count tilde (parsed r) = 1).
Proof.
  repeat split; (eexists; split; [vm_compute; reflexivity|]);
    cbn [parsed polarity]; repeat split.
Qed.

(** C4 (amended): for a word that holds no tilde, the structural rendering
    of a positional (tilde) shadow holds exactly one tilde, and the
    ceremonial rendering holds none unless the word is a Greek compound. *)
Theorem tilde_in_rendering :
  forall (cfg : config) (word : string),
    Py.count tilde word = 0 ->
    (forall p,
       detect_vcc (cleaned word) = Ok (true, Some p, Some "tilde") ->
       analysis_is (parse_word (at_level ParsingLevel.STRUCTURAL cfg) word)
         (fun r => is_shadow r = true
                   /\ polarity r = "Sovereign with tilde (positional union)"
                   /\ Py.count tilde (parsed r) = 1))
    /\ (is_greek_compound (cleaned word) = false ->
        analysis_is (parse_word (at_level ParsingLevel.CEREMONIAL cfg) word)
          (fun r => Py.count tilde (parsed r) = 0)).
Proof.
  intros cfg word Hw. pose proof (no_tilde_cleaned word Hw) as Hu. split.
  - intros p Hd. pose proof (detect_vcc_result _ _ Hd) as Hr.
    pose proof (vcc_not_greek _ _ _ Hr) as G.
    destruct (parse_word_stages (at_level ParsingLevel.STRUCTURAL cfg) word G)
      as [st0 [r [st [pol [rendered [res [_ [Hd' [_ [Hc [Hrender [_ Hp]]]]]]]]]]]].
    rewrite Hd in Hd'. inversion Hd'; subst r; clear Hd'.
    cbn [fst snd] in Hc, Hrender.
    eexists. split; [exact Hp|]. cbn [is_shadow polarity parsed].
    destruct (check_vcc_fires _ _ _ _ _ _ Hc) as [Hs _].
    split; [exact Hs|]. split.
    + unfold check_vcc in Hc. cbn [len_opt bind] in Hc.
      destruct (item_opt VCC_PREFIXES (Some p)); cbn [bind] in Hc;
        try discriminate.
      cbn in Hc. inversion Hc. reflexivity.
    + destruct (no_tilde_parts _ Hu) as [Hcp [Hcb Hcs]].
      unfold render in Hrender. cbn [level at_level] in Hrender.
      cbn [andb opt_eqb] in Hrender. rewrite String.eqb_refl in Hrender.
      destruct (Py.truthy_opt (suffix (extract_components (cleaned word))));
        injection Hrender as <-; rewrite ?count_app; cbn [Py.count append];
        rewrite ?count_fmt_opt, ?Hcp, ?Hcb, ?Hcs; reflexivity.
  - intros G.
    destruct (parse_word_stages (at_level ParsingLevel.CEREMONIAL cfg) word G)
      as [st0 [r [st [pol [rendered [res [_ [_ [_ [_ [Hrender [_ Hp]]]]]]]]]]]].
    eexists. split; [exact Hp|]. cbn [parsed].
    unfold render in Hrender. cbn [level at_level] in Hrender.
    inversion Hrender. apply count_join_underscore.
    now apply no_tilde_present_parts.
Qed.

(** The word "inform" is a positional shadow and no Greek compound. *)
Lemma tilde_in_rendering_witness :
  Py.count tilde "inform" = 0
  /\ analysis_is (parse_word (at_level ParsingLevel.STRUCTURAL default_config) "inform")
       (fun r => is_shadow r = true
                 /\ polarity r = "Sovereign with tilde (positional union)"
                 /\ Py.count tilde (parsed r) = 1)
  /\ analysis_is (parse_word (at_level ParsingLevel.CEREMONIAL default_config) "inform")
       (fun r => Py.count tilde (parsed r) = 0).
Proof.
  assert (H : Py.count tilde "inform" = 0) by reflexivity.
  split; [exact H|].
  destruct (tilde_in_rendering default_config "inform" H) as [H1 H2].
  split; [apply (H1 "IN"); vm_compute; reflexivity | apply H2; reflexivity].
Defined.

(** ** The tier of a word that is a shadow twice *)

Lemma check_semantic_fires cfg word_clean :
  flag_semantic cfg = true ->
  Py.mem SEMANTIC_SHADOWS (Py.lower word_clean) = true ->
  exists note,
    Py.get SEMANTIC_SHADOWS (Py.lower word_clean) = Some note
    /\ check_semantic cfg word_clean initial_shadow
       = Ok (mkShadow true [ShadowType.SEMANTIC]
               ["Semantic control: " ++ note] [] (Some 1%Z)).
Proof.
  intros Hf Hm. unfold check_semantic. rewrite Hf, Hm. cbn [andb].
  destruct (mem_item _ _ Hm) as [note [Hget Hitem]].
  exists note. split; [exact Hget|]. rewrite Hitem. reflexivity.
Qed.

(** C8: when the semantic table and the V+CC detector both fire on a word,
    the analysis has tier 1, set by the semantic check and kept by the
    structural one, and its shadow types are the semantic tag followed by
    the structural tag. *)
Theorem tier_of_double_shadow :
  forall (cfg : config) (word p sep : string),
    flag_semantic cfg = true ->
    Py.mem SEMANTIC_SHADOWS (Py.lower (cleaned word)) = true ->
    detect_vcc (cleaned word) = Ok (true, Some p, Some sep) ->
    analysis_is (parse_word cfg word)
      (fun r => tier r = Some 1%Z
                /\ shadow_types r = [ShadowType.SEMANTIC; ShadowType.STRUCTURAL]
                /\ In ShadowType.SEMANTIC (shadow_types r)
                /\ In ShadowType.STRUCTURAL (shadow_types r)
                /\ is_shadow r = true).
Proof.
  intros cfg word p sep Hf Hm Hd.
  pose proof (detect_vcc_result _ _ Hd) as Hr.
  pose proof (vcc_not_greek _ _ _ Hr) as G.
  destruct (parse_word_stages cfg word G)
    as [st0 [r [st [pol [rendered [res [H0 [Hd' [_ [Hc [_ [_ Hp]]]]]]]]]]]].
  rewrite Hd in Hd'. injection Hd' as <-. cbn [fst snd] in Hc.
  destruct (check_semantic_fires cfg (cleaned word) Hf Hm)
    as [note [_ Hsem]].
  rewrite Hsem in H0. injection H0 as <-.
  destruct (check_vcc_fires _ _ _ _ _ _ Hc) as [Hs [Ht Htier]].
  cbn [st_shadow_types st_tier tier_or Z.eqb Py.append app] in Ht, Htier.
  eexists. split; [exact Hp|].
  cbn [tier shadow_types is_shadow]. rewrite Ht, Htier, Hs.
  repeat split; simpl; auto.
Qed.

(** The word "information" is in the semantic table and starts with IN
    before a consonant. *)
Lemma tier_of_double_shadow_witness :
  flag_semantic default_config = true
  /\ Py.mem SEMANTIC_SHADOWS (Py.lower (cleaned "information")) = true
  /\ detect_vcc (cleaned "information") = Ok (true, Some "IN", Some "tilde")
  /\ analysis_is (parse_word default_config "information")
       (fun r => tier r = Some 1%Z
                 /\ shadow_types r = [ShadowType.SEMANTIC; ShadowType.STRUCTURAL]
                 /\ In ShadowType.SEMANTIC (shadow_types r)
                 /\ In ShadowType.STRUCTURAL (shadow_types r)
                 /\ is_shadow r = true).
Proof.
  assert (H1 : flag_semantic default_config = true) by reflexivity.
  assert (H2 : Py.mem SEMANTIC_SHADOWS (Py.lower (cleaned "information")) = true)
    by (vm_compute; reflexivity).
  assert (H3 : detect_vcc (cleaned "information")
               = Ok (true, Some "IN", Some "tilde"))
    by (vm_compute; reflexivity).
  repeat (split; [assumption|]).
  exact (tier_of_double_shadow default_config "information" "IN" "tilde" H1 H2 H3).
Defined.

(** ** The structural section of the report *)

Lemma bullet_lines_each cfg words :
  exists lines, bullet_lines cfg words = Ok lines
                /\ Forall2 (bullet_of cfg) words lines.
Proof.
  induction words as [|word words [lines [IH HF]]]; cbn [bullet_lines].
  - exists []. split; [reflexivity | constructor].
  - destruct (parse_word_returns cfg word) as [analysis Ha].
    rewrite Ha, IH. cbn [bind]. eexists. split; [reflexivity|].
    constructor; [|exact HF]. exists analysis. split; [exact Ha | reflexivity].
Qed.

Lemma structural_section_spec rt cfg shadows :
  exists lines,
    Forall2 (bullet_of cfg) (set_iter rt (firstn 10 shadows)) lines
    /\ structural_section rt cfg shadows = Ok (section_of shadows lines).
Proof.
  destruct (bullet_lines_each cfg (set_iter rt (firstn 10 shadows)))
    as [lines [Hl HF]].
  exists lines. split; [exact HF|].
  unfold structural_section, section_of. destruct shadows as [|w shadows];
    [reflexivity|].
  rewrite Hl. reflexivity.
Qed.

Lemma nodup_length_le (l : list string) :
  length (nodup string_dec l) <= length l.
Proof.
  apply NoDup_incl_length; [apply NoDup_nodup|].
  intros x Hx. now apply nodup_In in Hx.
Qed.

Section Report.

Variable rt : runtime.
Hypothesis rt_set_like : set_like rt.

(** The words the structural section lists: each word of the first ten
    entries once. *)
Lemma listed_words_spec shadows :
  Permutation (set_iter rt (firstn 10 shadows))
    (nodup string_dec (firstn 10 shadows))
  /\ NoDup (set_iter rt (firstn 10 shadows))
  /\ length (set_iter rt (firstn 10 shadows)) <= 10.
Proof.
  pose proof (rt_set_like (firstn 10 shadows)) as Hperm.
  split; [exact Hperm|]. split.
  - apply (Permutation_NoDup (Permutation_sym Hperm)), NoDup_nodup.
  - rewrite (Permutation_length Hperm).
    pose proof (nodup_length_le (firstn 10 shadows)).
    pose proof (firstn_le_length 10 shadows). lia.
Qed.

(** A set built from copies of one word iterates over that word. *)
Lemma set_iter_singleton l x :
  nodup string_dec l = [x] -> set_iter rt l = [x].
Proof.
  intros E. apply Permutation_length_1_inv, Permutation_sym.
  rewrite <- E. apply rt_set_like.
Qed.

End Report.

Lemma bullet_not_more word rendered shadows :
  bullet_line word rendered <> more_line shadows.
Proof. unfold bullet_line, more_line. cbn [append]. discriminate. Qed.

Lemma bullet_of_In cfg words lines x :
  Forall2 (bullet_of cfg) words lines -> In x lines ->
  exists word rendered, x = bullet_line word rendered.
Proof.
  induction 1 as [|w line ws ls [a [_ Ha]] _ IH]; intros Hx; [destruct Hx|].
  destruct Hx as [<-|Hx]; [now exists w, (parsed a) | now apply IH].
Qed.

(** The note is in the section exactly when the list has more than ten
    entries: no other line of the section reads like it. *)
Lemma more_line_in_section cfg words shadows lines :
  Forall2 (bullet_of cfg) words lines ->
  In (more_line shadows) (section_of shadows lines) <-> 10 < length shadows.
Proof.
  intros HF. unfold section_of. destruct shadows as [|w l].
  - cbn [In length]. split; [intros [] | lia].
  - set (shadows := w :: l).
    destruct (10 <? length shadows)%nat eqn:T.
    + apply Nat.ltb_lt in T. split; [intros _; exact T|]. intros _.
      apply in_or_app. right. apply in_or_app. right.
      apply in_or_app. left. now left.
    + apply Nat.ltb_ge in T. split; [|lia]. intros H.
      apply in_app_or in H. destruct H as [[H|[]]|H].
      * exfalso. unfold more_line in H. cbn [append] in H. discriminate.
      * apply in_app_or in H. destruct H as [H|H].
        -- destruct (bullet_of_In _ _ _ _ HF H) as [x [y E]].
           exfalso. symmetry in E. now apply bullet_not_more in E.
        -- cbn in H. destruct H as [H|[]]. discriminate.
Qed.

(** C3, as the code behaves: on a text whose structural shadows are ten
    times "inform" and then "object", the first ten distinct shadow words
    are "inform" and "object" and nothing is cut from them, yet the section
    lists "inform" alone and adds "... and 1 more": the list is cut to its
    first ten entries before the duplicates are dropped. *)
Lemma report_cuts_before_dedup :
  exists stats,
    analyze_document default_config eleven_shadows = Ok stats
    /\ firstn 10 (distinct [] (structural_shadows stats)) = ["inform"; "object"]
    /\ length (distinct [] (structural_shadows stats)) = 2
    /\ forall rt,
         set_like rt ->
         structural_section rt default_config (structural_shadows stats)
         = Ok [ "STRUCTURAL SHADOWS (V+CC): 11";
                "  • inform → IN~FORM";
                "  ... and 1 more";
                "" ].
Proof.
  eexists. split; [vm_compute; reflexivity|].
  cbn [structural_shadows]. split; [reflexivity|]. split; [reflexivity|].
  intros rt Hrt. unfold structural_section.
  assert (E : set_iter rt (firstn 10 (repeat "inform" 10 ++ ["object"])%list)
              = ["inform"]).
  { now apply set_iter_singleton. }
  cbn [repeat app] in E. rewrite E. vm_compute. reflexivity.
Qed.

(** C3 (amended): the structural section of the report lists, in the order
    the set is iterated, the distinct words among the first ten entries of
    the structural-shadow list, each on a bullet line rendered by
    [parse_word]; it ends with "... and N more", N being the number of
    entries past the tenth, exactly when the list has more than ten
    entries; and the report is its head, this section, the semantic
    section and the closing rule. *)
Theorem structural_section_contents :
  forall (rt : runtime) (cfg : config) (text : string),
    set_like rt ->
    exists stats words lines head semantic,
      analyze_document cfg text = Ok stats
      /\ words = set_iter rt (firstn 10 (structural_shadows stats))
      /\ Permutation words
           (nodup string_dec (firstn 10 (structural_shadows stats)))
      /\ NoDup words
      /\ length words <= 10
      /\ Forall2 (bullet_of cfg) words lines
      /\ structural_section rt cfg (structural_shadows stats)
         = Ok (section_of (structural_shadows stats) lines)
      /\ (In (more_line (structural_shadows stats))
            (section_of (structural_shadows stats) lines)
          <-> 10 < length (structural_shadows stats))
      /\ semantic_section rt cfg (semantic_shadows stats) = Ok semantic
      /\ report_lines rt cfg text
         = Ok (head ++ section_of (structural_shadows stats) lines
               ++ semantic ++ [rule])%list.
Proof.
  intros rt cfg text Hrt.
  destruct (analyze_document_returns cfg text) as [stats Hstats].
  destruct (structural_section_spec rt cfg (structural_shadows stats))
    as [lines [HF Hsec]].
  destruct (semantic_section_returns rt cfg (semantic_shadows stats))
    as [semantic Hsem].
  destruct (listed_words_spec rt Hrt (structural_shadows stats))
    as [Hperm [Hnodup Hlen]].
  exists stats, (set_iter rt (firstn 10 (structural_shadows stats))), lines.
  eexists. exists semantic.
  split; [exact Hstats|]. split; [reflexivity|]. split; [exact Hperm|].
  split; [exact Hnodup|]. split; [exact Hlen|].
  split; [exact HF|]. split; [exact Hsec|].
  split; [exact (more_line_in_section _ _ _ _ HF)|].
  split; [exact Hsem|].
  unfold report_lines. rewrite Hstats. cbn [bind]. rewrite Hsec. cbn [bind].
  rewrite Hsem. cbn [bind]. reflexivity.
Qed.

Lemma sample_runtime_set_like : set_like sample_runtime.
Proof. intros l. apply Permutation_refl. Qed.

(** The report of the eleven-word text under the sample runtime. *)
Lemma structural_section_contents_witness :
  set_like sample_runtime
  /\ exists stats words lines head semantic,
       analyze_document default_config eleven_shadows = Ok stats
       /\ words = set_iter sample_runtime (firstn 10 (structural_shadows stats))
       /\ Permutation words
            (nodup string_dec (firstn 10 (structural_shadows stats)))
       /\ NoDup words
       /\ length words <= 10
       /\ Forall2 (bullet_of default_config) words lines
       /\ structural_section sample_runtime default_config
            (structural_shadows stats)
          = Ok (section_of (structural_shadows stats) lines)
       /\ (In (more_line (structural_shadows stats))
             (section_of (structural_shadows stats) lines)
           <-> 10 < length (structural_shadows stats))
       /\ semantic_section sample_runtime default_config
            (semantic_shadows stats) = Ok semantic
       /\ report_lines sample_runtime default_config eleven_shadows
          = Ok (head ++ section_of (structural_shadows stats) lines
                ++ semantic ++ [rule])%list.
Proof.
  split; [exact sample_runtime_set_like|].
  exact (structural_section_contents sample_runtime default_config
           eleven_shadows sample_runtime_set_like).
Defined.

(** * Further properties of the source *)

(** ** Resonance *)
































(** ** The V+CC detector *)

Lemma vcc_keys_len p : In p (Py.keys VCC_PREFIXES) -> Py.len p = 2.
Proof.
  cbn [Py.keys List.map VCC_PREFIXES fst In]. intros H.
  repeat (destruct H as [H|H]; [subst p; reflexivity|]). destruct H.
Qed.

Lemma vcc_keys_separator p :
  In p (Py.keys VCC_PREFIXES) ->
  exists entry ty,
    Py.item VCC_PREFIXES p = Ok entry /\ Py.item entry "type" = Ok ty
    /\ (if String.eqb ty "positional" then "tilde" else "hyphen")
       = separator_of p.
Proof.
  cbn [Py.keys List.map VCC_PREFIXES fst In]. intros H.
  repeat (destruct H as [H|H];
          [subst p; do 2 eexists; repeat split; vm_compute; reflexivity|]).
  destruct H.
Qed.

Lemma startswith_take w p : Py.startswith w p = true -> Py.take (Py.len p) w = p.
Proof.
  revert w; induction p as [|a p IH]; intros w H; [reflexivity|].
  destruct w as [|b w]; [discriminate|]. cbn [Py.startswith] in H.
  apply andb_prop in H. destruct H as [Hab Hp].
  apply Ascii.eqb_eq in Hab. subst b.
  cbn [Py.len String.length Py.take]. f_equal. now apply IH.
Qed.

(** At most one key of the table has the shape on a given word. *)
Lemma vcc_shape_unique word_upper p q :
  In p (Py.keys VCC_PREFIXES) -> In q (Py.keys VCC_PREFIXES) ->
  vcc_shape word_upper p = true -> vcc_shape word_upper q = true -> p = q.
Proof.
  intros Hp Hq Sp Sq. unfold vcc_shape in *.
  apply andb_prop in Sp, Sq. destruct Sp as [Sp _], Sq as [Sq _].
  apply startswith_take in Sp, Sq.
  rewrite (vcc_keys_len _ Hp) in Sp. rewrite (vcc_keys_len _ Hq) in Sq.
  congruence.
Qed.

Lemma consonant_leaves_residual word_upper p :
  starts_with_consonant (Py.drop (Py.len p) word_upper) = true ->
  (Py.len p <? Py.len word_upper)%nat = true.
Proof.
  intros H. apply Nat.ltb_lt.
  pose proof (len_drop (Py.len p) word_upper) as L.
  destruct (Py.drop (Py.len p) word_upper); [discriminate|].
  cbn [Py.len String.length] in L. unfold Py.len in *. lia.
Qed.

(** The loop over any part of the table: it fails when no key of the part
    has the shape, and returns a key that has it otherwise. *)
Lemma detect_vcc_loop_char keys word_upper :
  (forall p, In p keys -> In p (Py.keys VCC_PREFIXES)) ->
  ((forall p, In p keys -> vcc_shape word_upper p = false)
   /\ detect_vcc_loop keys word_upper = Ok (false, None, None))
  \/ (exists p, In p keys /\ vcc_shape word_upper p = true
                /\ detect_vcc_loop keys word_upper
                   = Ok (true, Some p, Some (separator_of p))).
Proof.
  induction keys as [|k keys IH]; intros Hsub; cbn [detect_vcc_loop].
  - left. split; [intros p []|reflexivity].
  - assert (Hrest : forall p, In p keys -> In p (Py.keys VCC_PREFIXES)).
    { intros p Hp. apply Hsub. now right. }
    specialize (IH Hrest).
    assert (Skip : vcc_shape word_upper k = false ->
      ((forall p, In p (k :: keys) -> vcc_shape word_upper p = false)
       /\ detect_vcc_loop keys word_upper = Ok (false, None, None))
      \/ (exists p, In p (k :: keys) /\ vcc_shape word_upper p = true
                    /\ detect_vcc_loop keys word_upper
                       = Ok (true, Some p, Some (separator_of p)))).
    { intros Hk. destruct IH as [[Hnone Hl] | [p [Hin [Hs Hl]]]].
      - left. split; [|exact Hl]. intros p [<-|Hp]; auto.
      - right. exists p. split; [now right|]. now split. }
    destruct (Py.startswith word_upper k) eqn:S; cbn [andb].
    + destruct (starts_with_consonant (Py.drop (Py.len k) word_upper)) eqn:C.
      * rewrite (consonant_leaves_residual _ _ C).
        destruct (vcc_keys_separator k) as [entry [ty [-> [Hty Hsep]]]];
          [apply Hsub; now left|].
        cbn [bind]. rewrite Hty. cbn [bind].
        right. exists k. split; [now left|]. split.
        -- unfold vcc_shape. now rewrite S, C.
        -- rewrite <- Hsep. destruct (String.eqb ty "positional"); reflexivity.
      * assert (Hk : vcc_shape word_upper k = false).
        { unfold vcc_shape. now rewrite S, C. }
        destruct (Py.len k <? Py.len word_upper)%nat; now apply Skip.
    + apply Skip. unfold vcc_shape. now rewrite S.
Qed.


(** X5: the order in which the keys of the V+CC table are tried does not
    matter: the loop of the detector gives the same result on every
    rearrangement of the keys. *)
Theorem detect_vcc_order_irrelevant :
  forall keys word_upper,
    Permutation keys (Py.keys VCC_PREFIXES) ->
    detect_vcc_loop keys word_upper
    = detect_vcc_loop (Py.keys VCC_PREFIXES) word_upper.
Proof.
  intros keys word_upper Hperm.
  assert (Hsub : forall p, In p keys -> In p (Py.keys VCC_PREFIXES)).
  { intros p Hp. now apply (Permutation_in _ Hperm). }
  destruct (detect_vcc_loop_char keys word_upper Hsub)
    as [[Hnone Hl] | [p [Hin [Hs Hl]]]];
    destruct (detect_vcc_loop_char (Py.keys VCC_PREFIXES) word_upper)
      as [[Hnone' Hl'] | [p' [Hin' [Hs' Hl']]]]; auto; rewrite Hl, Hl'.
  - reflexivity.
  - rewrite Hnone in Hs'; [discriminate|].
    now apply (Permutation_in _ (Permutation_sym Hperm)).
  - rewrite Hnone' in Hs; [discriminate | now apply Hsub].
  - assert (p = p') as ->; [|reflexivity].
    apply (vcc_shape_unique word_upper); auto.
Qed.

Lemma detect_vcc_order_irrelevant_witness :
  Permutation (rev (Py.keys VCC_PREFIXES)) (Py.keys VCC_PREFIXES)
  /\ detect_vcc_loop (rev (Py.keys VCC_PREFIXES)) "UNLOCK"
     = detect_vcc_loop (Py.keys VCC_PREFIXES) "UNLOCK".
Proof.
  assert (H : Permutation (rev (Py.keys VCC_PREFIXES)) (Py.keys VCC_PREFIXES)).
  { apply Permutation_sym, Permutation_rev. }
  split; [exact H|].
  exact (detect_vcc_order_irrelevant (rev (Py.keys VCC_PREFIXES)) "UNLOCK" H).
Defined.

(** ** Longest match in the component extractor *)

Lemma insert_by_len_In x l z :
  In z (Py.insert_by_len x l) <-> z = x \/ In z l.
Proof.
  induction l as [|y l IH]; cbn [Py.insert_by_len In]; [intuition|].
  destruct (Py.len x <? Py.len y)%nat; cbn [In]; rewrite ?IH; intuition.
Qed.

Lemma sorted_by_len_desc_In l z :
  In z (Py.sorted_by_len_desc l) <-> In z l.
Proof.
  induction l as [|x l IH]; [reflexivity|].
  cbn [Py.sorted_by_len_desc fold_right]. fold (Py.sorted_by_len_desc l).
  rewrite insert_by_len_In, IH. cbn [In]. intuition.
Qed.

Lemma insert_by_len_sorted x l :
  StronglySorted by_len_desc l ->
  StronglySorted by_len_desc (Py.insert_by_len x l).
Proof.
  induction 1 as [|y l Hs IH Hall]; cbn [Py.insert_by_len].
  - repeat constructor.
  - destruct (Nat.ltb_spec (Py.len x) (Py.len y)) as [Hlt|Hge].
    + constructor; [exact IH|]. apply Forall_forall. intros z Hz.
      apply insert_by_len_In in Hz. destruct Hz as [->|Hz].
      * unfold by_len_desc. lia.
      * rewrite Forall_forall in Hall. now apply Hall.
    + constructor; [now constructor|]. constructor; [exact Hge|].
      rewrite Forall_forall in Hall |- *. intros z Hz.
      specialize (Hall z Hz). unfold by_len_desc in *. lia.
Qed.

Lemma sorted_by_len_desc_sorted l :
  StronglySorted by_len_desc (Py.sorted_by_len_desc l).
Proof.
  induction l as [|x l IH]; [constructor|].
  cbn [Py.sorted_by_len_desc fold_right]. now apply insert_by_len_sorted.
Qed.

Lemma prefix_loop_longest order word_upper p0 b0 :
  StronglySorted by_len_desc order ->
  (none_of (proper_prefix word_upper) order
   /\ prefix_loop order word_upper p0 b0 = (p0, b0))
  \/ (exists p, longest_of (proper_prefix word_upper) order p
                /\ prefix_loop order word_upper p0 b0
                   = (Some p, Py.drop (Py.len p) word_upper)).
Proof.
  induction 1 as [|q order Hs IH Hall]; cbn [prefix_loop].
  - left. split; [intros y []|reflexivity].
  - fold (proper_prefix word_upper q).
    destruct (proper_prefix word_upper q) eqn:E.
    + right. exists q. split; [|reflexivity].
      split; [now left|]. split; [exact E|].
      intros y [<-|Hy] _; [lia|].
      rewrite Forall_forall in Hall. exact (Hall y Hy).
    + destruct IH as [[Hnone Hl] | [p [[Hin [Hp Hmax]] Hl]]].
      * left. split; [|exact Hl]. intros y [<-|Hy]; auto.
      * right. exists p. split; [|exact Hl].
        split; [now right|]. split; [exact Hp|].
        intros y [<-|Hy] Ty; [congruence | now apply Hmax].
Qed.

Lemma suffix_loop_longest candidates s0 b :
  StronglySorted by_len_desc candidates ->
  (none_of (proper_suffix b) candidates
   /\ suffix_loop candidates s0 b = (s0, b))
  \/ (exists s, longest_of (proper_suffix b) candidates s
                /\ suffix_loop candidates s0 b
                   = (Some s, Py.drop_last (Py.len s) b)).
Proof.
  induction 1 as [|q candidates Hs IH Hall]; cbn [suffix_loop].
  - left. split; [intros y []|reflexivity].
  - fold (proper_suffix b q).
    destruct (proper_suffix b q) eqn:E.
    + right. exists q. split; [|reflexivity].
      split; [now left|]. split; [exact E|].
      intros y [<-|Hy] _; [lia|].
      rewrite Forall_forall in Hall. exact (Hall y Hy).
    + destruct IH as [[Hnone Hl] | [s [[Hin [Hp Hmax]] Hl]]].
      * left. split; [|exact Hl]. intros y [<-|Hy]; auto.
      * right. exists s. split; [|exact Hl].
        split; [now right|]. split; [exact Hp|].
        intros y [<-|Hy] Ty; [congruence | now apply Hmax].
Qed.

Lemma longest_of_sorted test l x :
  longest_of test (Py.sorted_by_len_desc l) x <-> longest_of test l x.
Proof.
  unfold longest_of. rewrite sorted_by_len_desc_In.
  split; intros [H1 [H2 H3]]; repeat split; auto; intros y Hy;
    apply H3; now apply sorted_by_len_desc_In.
Qed.

Lemma none_of_sorted test l :
  none_of test (Py.sorted_by_len_desc l) <-> none_of test l.
Proof.
  unfold none_of. split; intros H y Hy; apply H;
    now apply sorted_by_len_desc_In.
Qed.

(** X6: the prefix returned by [extract_components] is a longest key of the
    two prefix tables that starts the uppercased word and leaves a
    residual; it is [None] exactly when no key does. *)
Theorem extract_components_longest_prefix :
  forall word,
    match prefix (extract_components word) with
    | Some p =>
        longest_of (proper_prefix (Py.upper word)) (Py.keys all_prefixes) p
    | None =>
        none_of (proper_prefix (Py.upper word)) (Py.keys all_prefixes)
    end.
Proof.
  intros word. unfold extract_components.
  destruct (prefix_loop_longest prefix_order (Py.upper word) None (Py.upper word)
              (sorted_by_len_desc_sorted _)) as [[Hnone ->] | [p [Hp ->]]].
  - repeat match goal with
           | |- context [let '(_, _) := ?e in _] => destruct e
           end.
    cbn [prefix]. now apply none_of_sorted.
  - repeat match goal with
           | |- context [let '(_, _) := ?e in _] => destruct e
           end.
    cbn [prefix]. now apply longest_of_sorted.
Qed.

Lemma take_all s : Py.take (Py.len s) s = s.
Proof.
  induction s as [|c s IH]; [reflexivity|].
  cbn [Py.len String.length Py.take]. f_equal. exact IH.
Qed.

Lemma drop_last_zero s : Py.drop_last 0 s = s.
Proof. unfold Py.drop_last. rewrite Nat.sub_0_r. apply take_all. Qed.

Lemma suffix_keys_truthy s :
  In s (Py.keys FULL_WORD_SUFFIXES) \/ In s (Py.keys STANCE_SUFFIXES) ->
  Py.truthy s = true.
Proof.
  cbn [Py.keys List.map FULL_WORD_SUFFIXES STANCE_SUFFIXES fst In].
  intros [H|H];
    repeat (destruct H as [H|H]; [subst s; reflexivity|]); destruct H.
Qed.

Lemma residual_spec word :
  prefix_loop prefix_order (Py.upper word) None (Py.upper word)
  = (prefix (extract_components word), residual word).
Proof.
  unfold residual, extract_components.
  destruct (prefix_loop_longest prefix_order (Py.upper word) None (Py.upper word)
              (sorted_by_len_desc_sorted _)) as [[_ ->] | [p [_ ->]]];
    repeat match goal with
           | |- context [let '(_, _) := ?e in _] => destruct e
           end; reflexivity.
Qed.

(** X7: [extract_components] strips at most one suffix from the residual
    after the prefix, from the first of the three pools that has a
    candidate ending the residual with something left before it: full-word
    suffixes, then stance suffixes, then operators.  Within that pool it
    takes a longest candidate; the suffix is [None] exactly when no pool
    has one; and the base is the residual without the suffix. *)
Theorem extract_components_suffix_priority :
  forall word,
    let c := extract_components word in
    let fits := proper_suffix (residual word) in
    base c = Py.drop_last (Py.len (or_empty (suffix c))) (residual word)
    /\ ((exists s, suffix c = Some s
                   /\ longest_of fits (Py.keys FULL_WORD_SUFFIXES) s)
        \/ (exists s, suffix c = Some s
                      /\ none_of fits (Py.keys FULL_WORD_SUFFIXES)
                      /\ longest_of fits (Py.keys STANCE_SUFFIXES) s)
        \/ (exists s, suffix c = Some s
                      /\ none_of fits (Py.keys FULL_WORD_SUFFIXES)
                      /\ none_of fits (Py.keys STANCE_SUFFIXES)
                      /\ longest_of fits TRUE_OPERATORS s)
        \/ (suffix c = None
            /\ none_of fits (Py.keys FULL_WORD_SUFFIXES)
            /\ none_of fits (Py.keys STANCE_SUFFIXES)
            /\ none_of fits TRUE_OPERATORS)).
Proof.
  intros word. cbv zeta. pose proof (residual_spec word) as R.
  remember (residual word) as b eqn:Hb. clear Hb.
  unfold extract_components in *.
  destruct (prefix_loop prefix_order (Py.upper word) None (Py.upper word))
    as [p0 b0].
  assert (b0 = b) as ->.
  { repeat match type of R with
           | context [let '(_, _) := ?e in _] => destruct e
           end. now inversion R. }
  clear R.
  destruct (suffix_loop_longest (Py.sorted_by_len_desc (Py.keys FULL_WORD_SUFFIXES))
              None b (sorted_by_len_desc_sorted _)) as [[N1 ->] | [s [L1 ->]]].
  - apply (proj1 (none_of_sorted _ _)) in N1. cbn [Py.truthy_opt negb].
    destruct (suffix_loop_longest (Py.sorted_by_len_desc (Py.keys STANCE_SUFFIXES))
                None b (sorted_by_len_desc_sorted _)) as [[N2 ->] | [s [L2 ->]]].
    + apply (proj1 (none_of_sorted _ _)) in N2. cbn [Py.truthy_opt negb].
      destruct (suffix_loop_longest (Py.sorted_by_len_desc TRUE_OPERATORS)
                  None b (sorted_by_len_desc_sorted _)) as [[N3 ->] | [s [L3 ->]]].
      * apply (proj1 (none_of_sorted _ _)) in N3. cbn [base suffix or_empty Py.len String.length].
        split; [now rewrite drop_last_zero|]. do 3 right. auto.
      * apply (proj1 (longest_of_sorted _ _ _)) in L3. cbn [base suffix or_empty].
        split; [reflexivity|]. do 2 right. left. exists s. auto.
    + apply (proj1 (longest_of_sorted _ _ _)) in L2.
      assert (T : Py.truthy s = true).
      { apply suffix_keys_truthy. right. apply L2. }
      repeat (cbn [Py.truthy_opt negb]; rewrite ?T). cbn [negb base suffix or_empty].
      split; [reflexivity|]. right. left. exists s. auto.
  - apply (proj1 (longest_of_sorted _ _ _)) in L1.
    assert (T : Py.truthy s = true).
    { apply suffix_keys_truthy. left. apply L1. }
    repeat (cbn [Py.truthy_opt negb]; rewrite ?T). cbn [negb base suffix or_empty].
    split; [reflexivity|]. left. exists s. auto.
Qed.

(** ** Case *)


(** ** The rendering of a Greek compound *)





(** ** The analysis record *)

Lemma check_semantic_cases cfg word st0 :
  check_semantic cfg (cleaned word) initial_shadow = Ok st0 ->
  (semantic_fires cfg word = false /\ st0 = initial_shadow)
  \/ (semantic_fires cfg word = true
      /\ exists note,
           st0 = mkShadow true [ShadowType.SEMANTIC]
                   ["Semantic control: " ++ note] [] (Some 1%Z)).
Proof.
  unfold check_semantic, semantic_fires.
  destruct (flag_semantic cfg
            && Py.mem SEMANTIC_SHADOWS (Py.lower (cleaned word))) eqn:E.
  - apply andb_prop in E. destruct E as [_ M].
    destruct (mem_item _ _ M) as [note [_ ->]]. cbn [bind].
    intros H. injection H as <-. right. split; [reflexivity|]. now exists note.
  - intros H. injection H as <-. now left.
Qed.

Lemma check_vcc_cases word_upper r st0 st pol :
  vcc_result word_upper r ->
  check_vcc word_upper (fst (fst r)) (snd (fst r)) (snd r) st0 = Ok (st, pol) ->
  (fst (fst r) = false /\ st = st0 /\ pol = "Sovereign")
  \/ (fst (fst r) = true
      /\ exists warning alternative,
           st = mkShadow true
                  (Py.append (st_shadow_types st0) ShadowType.STRUCTURAL)
                  (Py.append (st_warnings st0) warning)
                  (Py.append (st_alternatives st0) alternative)
                  (Some (tier_or (st_tier st0) 2))
           /\ (pol = "Sovereign with tilde (positional union)"
               \/ pol = "Shadow (operational, use hyphen or avoid)")).
Proof.
  intros [-> | [p [sep [-> [Hin _]]]]]; cbn [fst snd check_vcc].
  - intros H. injection H as <- <-. now left.
  - cbn [len_opt bind item_opt].
    destruct (In_keys_get _ _ Hin) as [entry Hentry].
    unfold Py.item. rewrite Hentry. cbn [bind].
    destruct (opt_eqb (Some sep) "tilde"); intros H; injection H as <- <-;
      right; (split; [reflexivity|]); do 2 eexists; split; eauto.
Qed.

Lemma vcc_fires_spec word r :
  detect_vcc (cleaned word) = Ok r -> vcc_fires word = fst (fst r).
Proof. unfold vcc_fires. intros ->. now destruct r as [[f p] s]. Qed.

(** X10: the shadow fields of an analysis record agree with one another.
    The record is a shadow exactly when it has a shadow type; its types
    are the semantic tag (when the semantic check applies) followed by the
    structural tag (when the detector fires), and never BOTH; a Greek
    compound has neither.  The tier is 1 with the semantic tag, else 2
    with the structural tag, else none.  There is one warning per shadow
    type, and one alternative exactly when the structural tag is present.
    The polarity is one of four labels, and "Sovereign" exactly when the
    word is no Greek compound and the detector does not fire. *)
Theorem analysis_record_invariants :
  forall (cfg : config) (word : string),
    analysis_is (parse_word cfg word)
      (fun r =>
         original r = Py.strip word
         /\ shadow_types r
            = (if is_greek_compound (cleaned word) then []
               else (if semantic_fires cfg word then [ShadowType.SEMANTIC] else [])
                    ++ (if vcc_fires word then [ShadowType.STRUCTURAL] else []))%list
         /\ is_shadow r = negb (Nat.eqb (length (shadow_types r)) 0)
         /\ tier r = tier_of (shadow_types r)
         /\ length (warnings r) = length (shadow_types r)
         /\ length (alternatives r)
            = (if has_type ShadowType.STRUCTURAL (shadow_types r) then 1 else 0)
         /\ In (polarity r) polarities
         /\ (polarity r = "Sovereign"
             <-> is_greek_compound (cleaned word) = false
                 /\ vcc_fires word = false)).
Proof.
  intros cfg word. destruct (is_greek_compound (cleaned word)) eqn:G.
  - destruct (parse_word_greek cfg word G) as [res [_ Hp]].
    eexists. split; [exact Hp|]. cbn.
    repeat split; auto; try discriminate. intros [H _]. discriminate.
  - destruct (parse_word_stages cfg word G)
      as [st0 [r [st [pol [rendered [res [H0 [Hd [Hr [Hc [_ [_ Hp]]]]]]]]]]]].
    eexists. split; [exact Hp|].
    cbn [original shadow_types is_shadow tier warnings alternatives polarity].
    rewrite (vcc_fires_spec _ _ Hd).
    destruct (check_semantic_cases _ _ _ H0) as [[-> ->] | [-> [note ->]]];
      destruct (check_vcc_cases _ _ _ _ _ Hr Hc)
        as [[-> [-> ->]] | [-> [w [a [-> Hpol]]]]];
      cbn; repeat split; auto; try discriminate;
      try (destruct Hpol as [-> | ->]; auto; try discriminate);
      try (intros [_ H]; discriminate); try tauto.
Qed.

(** ** Components and rendering *)

Lemma component_details_texts c :
  List.map c_text (component_details c) = present_parts c.
Proof.
  unfold component_details, present_parts. rewrite !map_app.
  destruct (prefix c) as [p|], (suffix c) as [s|]; cbn [Py.truthy_opt Py.fmt_opt];
    repeat match goal with
           | |- context [if ?b then _ else _] => destruct b
           end; reflexivity.
Qed.

Lemma truthy_false s : Py.truthy s = false -> s = "".
Proof. destruct s; [reflexivity | discriminate]. Qed.

Lemma join_empty_present_parts c :
  Py.join "" (present_parts c)
  = or_empty (prefix c) ++ base c ++ or_empty (suffix c).
Proof.
  unfold present_parts.
  destruct (Py.truthy_opt (prefix c)) eqn:Tp;
    destruct (Py.truthy (base c)) eqn:Tb;
    destruct (Py.truthy_opt (suffix c)) eqn:Ts;
    try (apply falsy_or_empty in Tp; rewrite Tp);
    try (apply truthy_false in Tb; rewrite Tb);
    try (apply falsy_or_empty in Ts; rewrite Ts);
    destruct (prefix c), (suffix c); try discriminate;
    cbn [app Py.join Py.fmt_opt or_empty append];
    rewrite ?app_empty_r; reflexivity.
Qed.

Lemma present_parts_nonempty c :
  Forall (fun p => p <> "") (present_parts c).
Proof.
  unfold present_parts. apply Forall_app. split; [|apply Forall_app; split].
  - destruct (prefix c) as [p|]; cbn [Py.truthy_opt]; [|constructor].
    destruct (Py.truthy p) eqn:T; constructor; [|constructor].
    now apply truthy_true.
  - destruct (Py.truthy (base c)) eqn:T; constructor; [|constructor].
    now apply truthy_true.
  - destruct (suffix c) as [s|]; cbn [Py.truthy_opt]; [|constructor].
    destruct (Py.truthy s) eqn:T; constructor; [|constructor].
    now apply truthy_true.
Qed.

(** X11: the components of an analysis record spell the word: a Greek
    compound has none, and for any other word the texts of the components,
    in order and with nothing between them, are the uppercased cleaned
    word; none of them is empty, there are at most three, and there is at
    least one unless the cleaned word is empty. *)
Theorem components_spell_the_word :
  forall (cfg : config) (word : string),
    analysis_is (parse_word cfg word)
      (fun r =>
         if is_greek_compound (cleaned word) then components r = []
         else Py.join "" (component_texts r) = Py.upper (cleaned word)
              /\ Forall (fun text => text <> "") (component_texts r)
              /\ length (components r) <= 3
              /\ (components r = [] <-> cleaned word = "")).
Proof.
  intros cfg word. destruct (is_greek_compound (cleaned word)) eqn:G.
  - destruct (parse_word_greek cfg word G) as [res [_ Hp]].
    eexists. split; [exact Hp | reflexivity].
  - destruct (parse_word_stages cfg word G)
      as [st0 [r [st [pol [rendered [res [_ [_ [_ [_ [_ [_ Hp]]]]]]]]]]]].
    eexists. split; [exact Hp|]. unfold component_texts. cbn [components].
    rewrite component_details_texts, join_empty_present_parts.
    destruct (extract_components_parts (cleaned word)) as [E N].
    split; [exact E|]. split; [apply present_parts_nonempty|].
    assert (L : length (component_details (extract_components (cleaned word)))
                = length (present_parts (extract_components (cleaned word)))).
    { rewrite <- component_details_texts. now rewrite length_map. }
    split.
    + rewrite L. unfold present_parts. rewrite !length_app.
      repeat match goal with
             | |- context [if ?b then _ else _] => destruct b
             end; cbn [length]; lia.
    + split.
      * intros H. rewrite H in L. cbn [length] in L.
        unfold present_parts in L. rewrite !length_app in L.
        destruct (Py.truthy (base (extract_components (cleaned word)))) eqn:T.
        -- cbn [length] in L. lia.
        -- apply truthy_false in T.
           destruct (cleaned word) eqn:Ec; [reflexivity|].
           exfalso. apply N; [discriminate | exact T].
      * intros H. rewrite H. reflexivity.
Qed.









(** ** Cleaning *)

Lemma all_chars_filter f s : all_chars f (Py.filter f s) = true.
Proof.
  induction s as [|c s IH]; [reflexivity|]. cbn [Py.filter].
  destruct (f c) eqn:E; [|exact IH]. cbn [all_chars]. now rewrite E.
Qed.

Lemma filter_all_chars f s : all_chars f s = true -> Py.filter f s = s.
Proof.
  induction s as [|c s IH]; [reflexivity|]. cbn [all_chars Py.filter].
  intros H. apply andb_prop in H. destruct H as [-> H]. now rewrite IH.
Qed.


Lemma kept_char_not_space c : kept_char c = true -> Py.isspace_char c = false.
Proof. destruct c as [[] [] [] [] [] [] [] []]; cbn; congruence. Qed.



Lemma lstrip_kept s : all_chars kept_char s = true -> Py.lstrip s = s.
Proof.
  destruct s as [|c s]; [reflexivity|]. cbn [all_chars Py.lstrip]. intros H.
  apply andb_prop in H. destruct H as [H _].
  now rewrite (kept_char_not_space _ H).
Qed.

Lemma rstrip_kept s : all_chars kept_char s = true -> Py.rstrip s = s.
Proof.
  induction s as [|c s IH]; [reflexivity|]. cbn [all_chars Py.rstrip].
  intros H. apply andb_prop in H. destruct H as [Hc H].
  rewrite (IH H), (kept_char_not_space _ Hc). destruct s; reflexivity.
Qed.

(** A string of kept characters is its own cleaned form. *)
Lemma cleaned_kept s : all_chars kept_char s = true -> cleaned s = s.
Proof.
  intros H. unfold cleaned, Py.strip, clean_word.
  rewrite (lstrip_kept _ H), (rstrip_kept _ H).
  now apply filter_all_chars.
Qed.

Lemma cleaned_all_kept word : all_chars kept_char (cleaned word) = true.
Proof. unfold cleaned, clean_word. apply all_chars_filter. Qed.

Lemma cleaned_idem word : cleaned (cleaned word) = cleaned word.
Proof. apply cleaned_kept, cleaned_all_kept. Qed.

Lemma strip_cleaned word : Py.strip (cleaned word) = cleaned word.
Proof.
  pose proof (cleaned_all_kept word) as H. unfold Py.strip.
  now rewrite (lstrip_kept _ H), (rstrip_kept _ H).
Qed.

Lemma parse_word_by_cleaned cfg a b ra :
  cleaned a = cleaned b ->
  parse_word cfg a = Ok ra ->
  parse_word cfg b = Ok (with_original (Py.strip b) ra).
Proof.
  intros E Ha. destruct (is_greek_compound (cleaned a)) eqn:G.
  - destruct (parse_word_greek cfg a G) as [res [Hres Hp]].
    rewrite E in G, Hres.
    destruct (parse_word_greek cfg b G) as [res' [Hres' Hp']].
    rewrite Hp in Ha. injection Ha as <-. rewrite Hp'.
    unfold greek_record, with_original. cbn. rewrite E. congruence.
  - destruct (parse_word_stages cfg a G)
      as [st0 [r [st [pol [rendered [res [H0 [Hd [_ [Hc [Hrender [Hres Hp]]]]]]]]]]]].
    rewrite E in G, H0, Hd, Hc, Hrender, Hres.
    destruct (parse_word_stages cfg b G)
      as [st0' [r' [st' [pol' [rendered' [res' [H0' [Hd' [_ [Hc' [Hrender' [Hres' Hp']]]]]]]]]]]].
    rewrite Hp in Ha. injection Ha as <-. rewrite Hp'.
    assert (st0' = st0) as -> by congruence.
    assert (r' = r) as -> by congruence.
    assert (st' = st /\ pol' = pol) as [-> ->].
    { rewrite Hc in Hc'. now injection Hc' as <- <-. }
    assert (rendered' = rendered) as -> by congruence.
    assert (res' = res) as -> by congruence.
    unfold with_original. cbn. now rewrite E.
Qed.

(** X13: cleaning is idempotent, and an analysis depends on the word only
    through its cleaned form: analysing the cleaned word gives the same
    record, except that the [original] field holds the cleaned word
    instead of the stripped one. *)
Theorem analysis_depends_on_cleaned_word :
  forall (cfg : config) (word : string),
    cleaned (cleaned word) = cleaned word
    /\ analysis_is (parse_word cfg word)
         (fun r => parse_word cfg (cleaned word)
                   = Ok (with_original (cleaned word) r)).
Proof.
  intros cfg word. split; [apply cleaned_idem|].
  destruct (parse_word_returns cfg word) as [r Hr].
  exists r. split; [exact Hr|].
  rewrite <- (strip_cleaned word) at 2.
  apply (parse_word_by_cleaned cfg word); [|exact Hr].
  symmetry. apply cleaned_idem.
Qed.

(** ** The casual rendering is a fixed point *)












(** ** Document statistics *)

Lemma shadow_flags cfg word r :
  parse_word cfg word = Ok r ->
  is_shadow r = shadow_word cfg word
  /\ has_type ShadowType.STRUCTURAL (shadow_types r) = structural_word word
  /\ has_type ShadowType.SEMANTIC (shadow_types r) = semantic_word cfg word.
Proof.
  intros Hp. unfold shadow_word, structural_word, semantic_word.
  destruct (is_greek_compound (cleaned word)) eqn:G.
  - destruct (parse_word_greek cfg word G) as [res [_ Hp']].
    rewrite Hp' in Hp. injection Hp as <-. repeat split.
  - destruct (parse_word_stages cfg word G)
      as [st0 [r0 [st [pol [rendered [res [H0 [Hd [Hr [Hc [_ [_ Hp']]]]]]]]]]]].
    rewrite Hp' in Hp. injection Hp as <-. cbn [is_shadow shadow_types negb andb].
    rewrite (vcc_fires_spec _ _ Hd).
    destruct (check_semantic_cases _ _ _ H0) as [[-> ->] | [-> [note ->]]];
      destruct (check_vcc_cases _ _ _ _ _ Hr Hc)
        as [[-> [-> _]] | [-> [w [a [-> _]]]]];
      repeat split.
Qed.

Lemma analyze_loop_filter cfg words :
  forall count structural semantic,
    analyze_loop cfg words count structural semantic
    = Ok ((count + N.of_nat (length (List.filter (shadow_word cfg) words)))%N,
          (structural ++ List.filter structural_word words)%list,
          (semantic ++ List.filter (semantic_word cfg) words)%list).
Proof.
  induction words as [|word words IH]; intros count structural semantic;
    cbn [analyze_loop List.filter].
  - rewrite !List.app_nil_r, N.add_0_r. reflexivity.
  - destruct (parse_word_returns cfg word) as [r Hr]. rewrite Hr. cbn [bind].
    destruct (shadow_flags _ _ _ Hr) as [-> [-> ->]].
    assert (E : shadow_word cfg word
                = structural_word word || semantic_word cfg word)
      by reflexivity.
    rewrite E. clear E.
    destruct (structural_word word), (semantic_word cfg word);
      cbn [orb]; rewrite IH; unfold Py.append; cbn [length];
      rewrite <- ?List.app_assoc; cbn [app];
      (apply f_equal; apply f_equal2; [apply f_equal2|]; try reflexivity; lia).
Qed.

Lemma filter_length_or {A : Type} (f g : A -> bool) l :
  length (List.filter f l) <= length (List.filter (fun x => f x || g x) l)
  /\ length (List.filter g l) <= length (List.filter (fun x => f x || g x) l)
  /\ length (List.filter (fun x => f x || g x) l)
     <= length (List.filter f l) + length (List.filter g l).
Proof.
  induction l as [|x l IH]; cbn [List.filter length]; [lia|].
  destruct (f x), (g x); cbn [orb length]; lia.
Qed.

(** X15: the statistics of a document are what the analyses of its words
    say.  The structural list holds, in order and with repetitions, the
    words that get the structural tag, the semantic list those that get
    the semantic tag, and the shadow count is the number of words that get
    either; so each list is no longer than the shadow count, the shadow
    count is at most the sum of their lengths, and at most the number of
    words. *)
Theorem document_statistics_by_word :
  forall (cfg : config) (text : string),
    exists stats,
      analyze_document cfg text = Ok stats
      /\ total_words stats = N.of_nat (length (Re.findall_words text))
      /\ structural_shadows stats
         = List.filter structural_word (Re.findall_words text)
      /\ semantic_shadows stats
         = List.filter (semantic_word cfg) (Re.findall_words text)
      /\ shadow_count stats
         = N.of_nat (length (List.filter (shadow_word cfg) (Re.findall_words text)))
      /\ (N.of_nat (length (structural_shadows stats)) <= shadow_count stats)%N
      /\ (N.of_nat (length (semantic_shadows stats)) <= shadow_count stats)%N
      /\ (shadow_count stats
          <= N.of_nat (length (structural_shadows stats))
             + N.of_nat (length (semantic_shadows stats)))%N
      /\ (shadow_count stats <= total_words stats)%N.
Proof.
  intros cfg text. unfold analyze_document.
  rewrite analyze_loop_filter. cbn [bind app].
  rewrite score_of_formula. cbn [bind].
  eexists. split; [reflexivity|].
  cbn [total_words structural_shadows semantic_shadows shadow_count].
  rewrite N.add_0_l.
  pose proof (filter_length_or structural_word (semantic_word cfg)
                (Re.findall_words text)) as [L1 [L2 L3]].
  pose proof (filter_length (shadow_word cfg) (Re.findall_words text)) as L4.
  unfold shadow_word in *.
  repeat split; lia.
Qed.

(** ** The shape of the report *)





(** ** The tokens of a text *)

Lemma get_drop i s k : String.get k (Py.drop i s) = String.get (i + k) s.
Proof.
  revert s; induction i as [|i IH]; intros s; [reflexivity|].
  destruct s as [|c s]; cbn [Py.drop plus String.get].
  - now destruct k.
  - apply IH.
Qed.

Lemma drop_S i s c rest : Py.drop i s = String c rest -> Py.drop (S i) s = rest.
Proof.
  revert s; induction i as [|i IH]; intros s H.
  - cbn [Py.drop] in H. subst s. reflexivity.
  - destruct s as [|a s]; [discriminate|]. cbn [Py.drop] in *. now apply IH.
Qed.

Lemma word_in_class c : Re.is_word_char c = true -> Re.in_class c = true.
Proof. unfold Re.in_class. now intros ->. Qed.

Lemma run_length_inside s k :
  k < Re.run_length s ->
  exists c, String.get k s = Some c /\ Re.in_class c = true.
Proof.
  revert k; induction s as [|a s IH]; intros k H; cbn [Re.run_length] in H;
    [lia|].
  destruct (Re.in_class a) eqn:E; [|lia].
  destruct k as [|k]; [now exists a|]. cbn [String.get]. apply IH. lia.
Qed.

Lemma run_length_end s :
  match String.get (Re.run_length s) s with
  | Some c => Re.in_class c = false
  | None => True
  end.
Proof.
  induction s as [|a s IH]; cbn [Re.run_length]; [exact I|].
  destruct (Re.in_class a) eqn:E; cbn [String.get]; [exact IH | exact E].
Qed.

Lemma run_length_drop s n :
  n <= Re.run_length s -> Re.run_length (Py.drop n s) = Re.run_length s - n.
Proof.
  revert s; induction n as [|n IH]; intros s H; [cbn; lia|].
  destruct s as [|a s]; cbn [Re.run_length] in *; [lia|].
  destruct (Re.in_class a); [|lia]. cbn [Py.drop]. rewrite IH; lia.
Qed.

Lemma take_in_class s n :
  n <= Re.run_length s -> all_chars Re.in_class (Py.take n s) = true.
Proof.
  revert s; induction n as [|n IH]; intros s H; [reflexivity|].
  destruct s as [|a s]; cbn [Re.run_length] in H; [lia|].
  destruct (Re.in_class a) eqn:E; [|lia].
  cbn [Py.take all_chars]. rewrite E. apply IH. lia.
Qed.

Lemma run_length_le_len s : Re.run_length s <= Py.len s.
Proof.
  induction s as [|a s IH]; cbn [Re.run_length Py.len String.length]; [lia|].
  destruct (Re.in_class a); unfold Py.len in *; lia.
Qed.

Lemma get_take s n k : k < n -> String.get k (Py.take n s) = String.get k s.
Proof.
  revert s k; induction n as [|n IH]; intros s k H; [lia|].
  destruct s as [|a s]; [reflexivity|]. cbn [Py.take].
  destruct k as [|k]; [reflexivity|]. cbn [String.get]. apply IH. lia.
Qed.

(** The position after a run of class characters holds no word
    character. *)
Lemma no_word_after_run text i :
  Re.word_at text (i + Re.run_length (Py.drop i text)) = false.
Proof.
  unfold Re.word_at. rewrite <- get_drop.
  pose proof (run_length_end (Py.drop i text)) as H.
  destruct (String.get (Re.run_length (Py.drop i text)) (Py.drop i text))
    as [c|]; [|reflexivity].
  destruct (Re.is_word_char c) eqn:W; [|reflexivity].
  apply word_in_class in W. congruence.
Qed.

(** After a word character, a word boundary comes before or at the next
    position that holds no word character. *)
Lemma boundary_after_word text d :
  forall j,
    Re.word_at text j = true -> Re.word_at text (j + S d) = false ->
    exists e, 1 <= e <= S d /\ Re.word_boundary text (j + e) = true.
Proof.
  induction d as [|d IH]; intros j Hj Hend.
  - exists 1. split; [lia|]. unfold Re.word_boundary.
    replace (j + 1) with (S j) in * by lia. now rewrite Hj, Hend.
  - destruct (Re.word_at text (S j)) eqn:Hn.
    + destruct (IH (S j) Hn) as [e [He Hb]].
      { now replace (S j + S d) with (j + S (S d)) by lia. }
      exists (S e). split; [lia|].
      now replace (j + S e) with (S j + e) by lia.
    + exists 1. split; [lia|]. unfold Re.word_boundary.
      replace (j + 1) with (S j) by lia. now rewrite Hj, Hn.
Qed.

Lemma backtrack_spec text i m :
  match Re.backtrack text i m with
  | Some n =>
      1 <= n <= m /\ Re.word_boundary text (i + n) = true
      /\ forall n', n < n' <= m -> Re.word_boundary text (i + n') = false
  | None => forall n', 1 <= n' <= m -> Re.word_boundary text (i + n') = false
  end.
Proof.
  induction m as [|m IH]; cbn [Re.backtrack]; [intros n' H; lia|].
  destruct (Re.word_boundary text (i + S m)) eqn:B.
  - split; [lia|]. split; [exact B|]. intros n' H. lia.
  - destruct (Re.backtrack text i m) as [n|].
    + destruct IH as [Hn [Hb Hmax]]. split; [lia|]. split; [exact Hb|].
      intros n' H. destruct (Nat.eq_dec n' (S m)) as [->|]; [exact B|].
      apply Hmax. lia.
    + intros n' H. destruct (Nat.eq_dec n' (S m)) as [->|]; [exact B|].
      apply IH. lia.
Qed.

(** No boundary past the end of a match means no word character in the
    rest of the run. *)
Lemma no_word_left text i m n :
  m = Re.run_length (Py.drop i text) -> n <= m ->
  (forall n', n < n' <= m -> Re.word_boundary text (i + n') = false) ->
  forall k, k < m - n -> Re.word_at text (i + n + k) = false.
Proof.
  intros Hm Hn Hmax k Hk.
  destruct (Re.word_at text (i + n + k)) eqn:W; [|reflexivity].
  exfalso.
  destruct (boundary_after_word text (m - n - k - 1) (i + n + k) W)
    as [e [He Hb]].
  { replace (i + n + k + S (m - n - k - 1)) with (i + m) by lia.
    rewrite Hm. apply no_word_after_run. }
  assert (F : Re.word_boundary text (i + (n + k + e)) = false)
    by (apply Hmax; lia).
  replace (i + (n + k + e)) with (i + n + k + e) in F by lia.
  congruence.
Qed.

Lemma drop_add i n s : Py.drop (i + n) s = Py.drop n (Py.drop i s).
Proof.
  revert s; induction i as [|i IH]; intros s; [reflexivity|].
  destruct s as [|c s]; cbn [plus Py.drop]; [now destruct n | apply IH].
Qed.

Lemma startswith_take_self s n : Py.startswith s (Py.take n s) = true.
Proof.
  revert s; induction n as [|n IH]; intros s; [reflexivity|].
  destruct s as [|c s]; [reflexivity|]. cbn [Py.take Py.startswith].
  now rewrite Ascii.eqb_refl, IH.
Qed.

Lemma contains_drop i s t :
  t <> "" -> Py.startswith (Py.drop i s) t = true -> Py.contains s t = true.
Proof.
  intros Ht. revert s; induction i as [|i IH]; intros s H.
  - now apply startswith_contains.
  - destruct s as [|c s].
    + cbn [Py.drop] in H. destruct t; [congruence | discriminate].
    + cbn [Py.drop] in H. cbn [Py.contains]. rewrite (IH s H).
      apply orb_true_r.
Qed.

Lemma word_at_head text i c rest :
  Py.drop i text = String c rest -> Re.word_at text i = Re.is_word_char c.
Proof.
  intros H. unfold Re.word_at.
  replace i with (i + 0) by lia. rewrite <- get_drop, H. reflexivity.
Qed.

(** A match found where the invariant holds is a well-formed token, and
    the invariant holds again after it. *)
Lemma match_well_formed text i c rest n :
  Py.drop i text = String c rest ->
  scan_invariant text i ->
  Re.word_at_pos text i = Some n ->
  1 <= n
  /\ well_formed_token (Py.take n (String c rest))
  /\ Py.contains text (Py.take n (String c rest)) = true
  /\ scan_invariant text (i + n).
Proof.
  intros Hd Inv Hm. unfold Re.word_at_pos in Hm.
  destruct (Re.word_boundary text i) eqn:B; [|discriminate].
  pose proof (backtrack_spec text i (Re.run_length (Py.drop i text))) as S.
  rewrite Hm in S. destruct S as [Hn [Bn Hmax]].
  remember (Re.run_length (Py.drop i text)) as m eqn:Em.
  pose proof (no_word_left text i m n Em (proj2 Hn) Hmax) as Left.
  assert (Last : Re.word_at text (i + (n - 1)) = true).
  { destruct (Re.word_at text (i + (n - 1))) eqn:W; [reflexivity|].
    exfalso. unfold Re.word_boundary in Bn.
    replace (i + n) with (S (i + (n - 1))) in Bn by lia.
    rewrite W in Bn. cbn [xorb] in Bn.
    replace (S (i + (n - 1))) with (i + n) in Bn by lia.
    destruct (Nat.eq_dec n m) as [->|Hne].
    - rewrite Em, no_word_after_run in Bn. discriminate.
    - specialize (Left 0). replace (i + n + 0) with (i + n) in Left by lia.
      rewrite Left in Bn; [discriminate | lia]. }
  assert (First : Re.word_at text i = true).
  { destruct (Re.word_at text i) eqn:W; [reflexivity|]. exfalso.
    unfold Re.word_boundary in B. rewrite W in B.
    destruct Inv as [Inv|Inv].
    - rewrite Inv in B. discriminate.
    - rewrite <- Em in Inv. rewrite (Inv (n - 1)) in Last; [discriminate|lia]. }
  split; [lia|]. split; [|split].
  - assert (Ln : Py.len (Py.take n (String c rest)) = n).
    { apply len_take. pose proof (run_length_le_len (Py.drop i text)).
      rewrite Hd in *. lia. }
    split; [|split; [|split]].
    + destruct n; [lia | discriminate].
    + apply take_in_class. rewrite <- Hd. lia.
    + unfold first_char. rewrite get_take by lia. cbn [String.get is_word_opt].
      now rewrite <- (word_at_head _ _ _ _ Hd).
    + unfold last_char. rewrite Ln, get_take by lia.
      rewrite <- Hd, get_drop. exact Last.
  - apply (contains_drop i).
    + destruct n; [lia | discriminate].
    + rewrite Hd. apply startswith_take_self.
  - right. rewrite drop_add, run_length_drop by lia.
    rewrite <- Em. exact Left.
Qed.

(** Where nothing matches, the invariant moves on by one position. *)
Lemma no_match_invariant text i c rest :
  Py.drop i text = String c rest ->
  scan_invariant text i ->
  Re.word_at_pos text i = None ->
  scan_invariant text (S i).
Proof.
  intros Hd Inv Hm.
  destruct (Re.word_at text i) eqn:W; [|now left].
  exfalso. pose proof (word_at_head _ _ _ _ Hd) as Wc. rewrite W in Wc.
  assert (Run : 1 <= Re.run_length (Py.drop i text)).
  { rewrite Hd. cbn [Re.run_length].
    rewrite (word_in_class c) by now symmetry. lia. }
  unfold Re.word_at_pos in Hm.
  destruct Inv as [Inv|Inv].
  - unfold Re.word_boundary in Hm. rewrite Inv, W in Hm. cbn [xorb] in Hm.
    pose proof (backtrack_spec text i (Re.run_length (Py.drop i text))) as Bk.
    rewrite Hm in Bk.
    destruct (boundary_after_word text (Re.run_length (Py.drop i text) - 1) i W)
      as [e [He Hb]].
    { replace (S (Re.run_length (Py.drop i text) - 1))
        with (Re.run_length (Py.drop i text)) by lia.
      apply no_word_after_run. }
    rewrite Bk in Hb; [discriminate | lia].
  - specialize (Inv 0). replace (i + 0) with i in Inv by lia.
    rewrite Inv in W; [discriminate | lia].
Qed.

Lemma scan_well_formed text :
  forall rest skip i,
    rest = Py.drop i text ->
    scan_invariant text (i + skip) ->
    Forall (fun token => well_formed_token token
                         /\ Py.contains text token = true)
      (Re.scan Re.word_at_pos text skip i rest).
Proof.
  induction rest as [|c rest IH]; intros skip i Hd Inv; cbn [Re.scan];
    [constructor|].
  symmetry in Hd. pose proof (drop_S _ _ _ _ Hd) as Hd'. symmetry in Hd'.
  destruct skip as [|k].
  - replace (i + 0) with i in Inv by lia.
    destruct (Re.word_at_pos text i) as [n|] eqn:M.
    + destruct (match_well_formed _ _ _ _ _ Hd Inv M) as [Hn [Wf [Hc Inv']]].
      constructor; [now split|]. apply IH; [exact Hd'|].
      now replace (S i + (n - 1)) with (i + n) by lia.
    + apply IH; [exact Hd'|]. replace (S i + 0) with (S i) by lia.
      now apply (no_match_invariant _ _ _ _ Hd).
  - apply IH; [exact Hd'|]. now replace (S i + k) with (i + S k) by lia.
Qed.


Lemma in_class_kept c : Re.in_class c = kept_char c.
Proof. destruct c as [[] [] [] [] [] [] [] []]; reflexivity. Qed.

Lemma all_in_class_kept s :
  all_chars Re.in_class s = all_chars kept_char s.
Proof.
  induction s as [|c s IH]; [reflexivity|]. cbn [all_chars].
  now rewrite in_class_kept, IH.
Qed.

(** X18: the tokens of a text are already clean: stripping and cleaning
    leave a token as it is, so the analysis of a token has the token
    itself in its [original] field and works on the token as it stands in
    the text. *)
Theorem tokens_are_clean :
  forall (cfg : config) (text : string),
    Forall (fun token =>
              Py.strip token = token
              /\ cleaned token = token
              /\ analysis_is (parse_word cfg token)
                   (fun r => original r = token))
      (Re.findall_words text).
Proof.
  intros cfg text.
  pose proof (scan_well_formed text text 0 0 eq_refl (or_introl eq_refl)) as H.
  unfold Re.findall_words, Re.findall.
  eapply Forall_impl; [|exact H]. cbv beta.
  intros token [[_ [Hc _]] _]. rewrite all_in_class_kept in Hc.
  assert (Hs : Py.strip token = token).
  { unfold Py.strip. now rewrite (lstrip_kept _ Hc), (rstrip_kept _ Hc). }
  split; [exact Hs|]. split; [now apply cleaned_kept|].
  destruct (parse_word_returns cfg token) as [r Hr]. exists r.
  split; [exact Hr|].
  destruct (is_greek_compound (cleaned token)) eqn:G.
  - destruct (parse_word_greek cfg token G) as [res [_ Hp]].
    rewrite Hp in Hr. injection Hr as <-. exact Hs.
  - destruct (parse_word_stages cfg token G)
      as [st0 [r0 [st [pol [rendered [res [_ [_ [_ [_ [_ [_ Hp]]]]]]]]]]]].
    rewrite Hp in Hr. injection Hr as <-. exact Hs.
Qed.

(** ** The two token patterns *)

Lemma token_at_pos_cases text i c rest :
  Py.drop i text = String c rest ->
  match Re.word_at_pos text i with
  | Some n => Re.token_at_pos text i = Some n
  | None =>
      (Re.token_at_pos text i = Some 1 /\ Re.is_word_char c = false)
      \/ Re.token_at_pos text i = None
  end.
Proof.
  intros Hd. unfold Re.token_at_pos.
  destruct (Re.word_at_pos text i); [reflexivity|].
  assert (Hg : String.get i text = Some c).
  { pose proof (get_drop i text 0) as H. rewrite Hd in H.
    cbn [String.get] in H. now rewrite Nat.add_0_r in H. }
  rewrite Hg.
  destruct (Re.is_word_char c); cbn [negb andb]; [right; reflexivity|].
  destruct (Py.isspace_char c); cbn [negb];
    [right; reflexivity | left; split; reflexivity].
Qed.

Lemma scan_tokens_words text :
  forall rest skip i,
    rest = Py.drop i text ->
    scan_invariant text (i + skip) ->
    List.filter wordy (Re.scan Re.token_at_pos text skip i rest)
    = Re.scan Re.word_at_pos text skip i rest
    /\ Forall (fun token => wordy token = false -> Py.len token = 1)
         (Re.scan Re.token_at_pos text skip i rest).
Proof.
  induction rest as [|c rest IH]; intros skip i Hd Inv; cbn [Re.scan];
    [split; [reflexivity | constructor]|].
  symmetry in Hd. pose proof (drop_S _ _ _ _ Hd) as Hd'. symmetry in Hd'.
  destruct skip as [|k].
  - replace (i + 0) with i in Inv by lia.
    pose proof (token_at_pos_cases _ _ _ _ Hd) as T.
    destruct (Re.word_at_pos text i) as [n|] eqn:M.
    + rewrite T.
      destruct (match_well_formed _ _ _ _ _ Hd Inv M)
        as [Hn [[_ [_ [Hf _]]] [_ Inv']]].
      destruct (IH (n - 1) (S i) Hd') as [E F].
      { now replace (S i + (n - 1)) with (i + n) by lia. }
      cbn [List.filter]. unfold wordy at 1. rewrite Hf, E.
      split; [reflexivity|]. constructor; [|exact F].
      unfold wordy. rewrite Hf. discriminate.
    + pose proof (no_match_invariant _ _ _ _ Hd Inv M) as Inv'.
      destruct (IH 0 (S i) Hd') as [E F].
      { now replace (S i + 0) with (S i) by lia. }
      destruct T as [[-> Hw] | ->]; [|now split].
      cbn [Nat.sub List.filter Py.take].
      unfold wordy at 1. cbn [first_char String.get is_word_opt].
      rewrite Hw, E. split; [reflexivity|]. constructor; [|exact F].
      reflexivity.
  - apply IH; [exact Hd'|]. now replace (S i + k) with (i + S k) by lia.
Qed.

Lemma punctuation_unchanged cfg c :
  Re.in_class c = true -> Re.is_word_char c = false ->
  analysis_is (parse_word cfg (String c ""))
    (fun r => parsed r = String c "").
Proof.
  intros Hc Hw.
  assert (H : c = "-"%char \/ c = "~"%char \/ c = "'"%char).
  { destruct c as [[] [] [] [] [] [] [] []]; try discriminate; auto. }
  destruct cfg as [[] strict [] alts];
    destruct H as [-> | [-> | ->]];
    eexists; (split; [vm_compute; reflexivity | reflexivity]).
Qed.

Lemma parse_tokens_pieces cfg tokens :
  Forall (fun token => wordy token = false -> Py.len token = 1) tokens ->
  exists pieces,
    parse_tokens cfg tokens = Ok pieces
    /\ Forall2 (piece_of cfg) tokens pieces.
Proof.
  induction 1 as [|token tokens Hone _ [pieces [IH HF]]]; cbn [parse_tokens].
  - exists []. split; [reflexivity | constructor].
  - rewrite IH. unfold piece_of.
    destruct (wordy token) eqn:W.
    + assert (C : Re.starts_in_class token = true).
      { destruct token as [|c t]; [discriminate|].
        cbn in W |- *. now apply word_in_class. }
      rewrite C. destruct (parse_word_returns cfg token) as [r Hr].
      rewrite Hr. cbn [bind]. eexists. split; [reflexivity|].
      constructor; [|exact HF]. rewrite W. exists r. now split.
    + specialize (Hone eq_refl).
      destruct token as [|c [|d t]]; try discriminate Hone.
      cbn [Re.starts_in_class].
      destruct (Re.in_class c) eqn:C.
      * destruct (punctuation_unchanged cfg c C) as [r [Hr Hp]].
        { exact W. }
        rewrite Hr. cbn [bind]. eexists. split; [reflexivity|].
        constructor; [|exact HF]. rewrite W. now split.
      * cbn [bind]. eexists. split; [reflexivity|].
        constructor; [|exact HF]. rewrite W. now split.
Qed.

(** X19: [parse_document] and [analyze_document] see the same words.  The
    tokens of the document parser that begin with a word character are, in
    order, exactly the words of the analyser; every other token is a single
    character.  The output of [parse_document] is, joined by single spaces,
    the parsed string of each word and every other token unchanged. *)
Theorem document_parser_pieces :
  forall (cfg : config) (text : string),
    List.filter wordy (Re.findall_tokens text) = Re.findall_words text
    /\ exists pieces,
         Forall2 (piece_of cfg) (Re.findall_tokens text) pieces
         /\ parse_document cfg text = Ok (Py.join " " pieces).
Proof.
  intros cfg text.
  destruct (scan_tokens_words text text 0 0 eq_refl (or_introl eq_refl))
    as [E F].
  split; [exact E|].
  destruct (parse_tokens_pieces cfg _ F) as [pieces [Hp HF]].
  exists pieces. split; [exact HF|].
  unfold parse_document, Re.findall_tokens, Re.findall. now rewrite Hp.
Qed.

(** ** The Greek early return hides no shadow *)




(** ** The resonance of an analysed word *)







